(** * Shallow embedding of parca-agent's profile converter (pkg/pprof),
      debuginfo manager (pkg/debuginfo) and VDSO symbol cache (pkg/vdso). *)

From Stdlib Require Import ZArith Lia.
From stdpp Require Import base gmap strings list.

Local Open Scope Z_scope.

(* ===================================================================== *)
(** ** Go helpers *)
(* ===================================================================== *)

(** [strings.HasSuffix]:
    [len(s) >= len(suffix) && s[len(s)-len(suffix):] == suffix]. *)
Definition HasSuffix (s suffix : string) : bool :=
  (String.length suffix <=? String.length s)%nat &&
  String.eqb (String.substring (String.length s - String.length suffix)
                               (String.length suffix) s) suffix.

(** Go's conversion [int64(x)] of a [uint64] value: the low 64 bits read
    in two's complement. *)
Definition int64_of_uint64 (x : Z) : Z :=
  let m := x mod 2 ^ 64 in
  if m <? 2 ^ 63 then m else m - 2 ^ 64.

(* ===================================================================== *)
(** ** A state monad for Go methods on a pointer receiver *)
(* ===================================================================== *)

Definition ST (S A : Type) : Type := S -> A * S.

Definition st_ret {S A} (x : A) : ST S A := fun s => (x, s).
Definition st_bind {S A B} (m : ST S A) (k : A -> ST S B) : ST S B :=
  fun s => let (a, s') := m s in k a s'.
Definition st_get {S} : ST S S := fun s => (s, s).
Definition st_put {S} (s' : S) : ST S unit := fun _ => (tt, s').

Notation "'do' x <- m ; k" := (st_bind m (fun x => k))
  (at level 200, x name, m at level 100, k at level 200).

(* ===================================================================== *)
(** ** pkg/pprof: the profile converter *)
(* ===================================================================== *)

Module Pprof.

(** [process.Mapping] (only the fields the converter reads). *)
Record ProcessMapping := mkProcessMapping {
  pm_start : Z;
  pm_limit : Z;
  pm_offset : Z;
  pm_file : string;
  pm_build_id : string;
}.

(** [pprofprofile.Mapping]. *)
Record pprofMapping := mkMapping {
  m_id : nat;
  m_start : Z;
  m_limit : Z;
  m_offset : Z;
  m_file : string;
  m_build_id : string;
}.

(** [pprofprofile.Function]. *)
Record pprofFunction := mkFunction {
  fn_id : nat;
  fn_name : string;
}.

(** Pointers are modelled as positions in the table the pointee lives in:
    every [*Location] the converter hands out is appended to
    [c.result.Location], every [*Function] to [c.result.Function], and
    every [*Mapping] is an element of [c.result.Mapping].
    [pprofprofile.Line] keeps its [*Function]. *)
Record pprofLine := mkLine { line_function : nat }.

(** [pprofprofile.Location]. *)
Record pprofLocation := mkLocation {
  loc_id : nat;
  loc_mapping : nat;
  loc_address : Z;
  loc_line : list pprofLine;
}.

(** [pprofprofile.Sample]. *)
Record pprofSample := mkSample {
  s_value : list Z;
  s_location : list nat;
}.

(** [pprofprofile.ValueType]. *)
Record ValueType := mkValueType { vt_type : string; vt_unit : string }.

(** [pprofprofile.Profile]. *)
Record pprofProfile := mkProfile {
  p_time_nanos : Z;
  p_duration_nanos : Z;
  p_period : Z;
  p_sample_type : list ValueType;
  p_period_type : ValueType;
  p_mapping : list pprofMapping;
  p_location : list pprofLocation;
  p_function : list pprofFunction;
  p_sample : list pprofSample;
}.

(** [profile.RawSample]: a [uint64] value and two stacks of [uint64]. *)
Record RawSample := mkRawSample {
  rs_value : Z;
  rs_user_stack : list Z;
  rs_kernel_stack : list Z;
}.

(** [perf.Map]: its [Lookup(addr) (string, error)]; [None] is an error. *)
Record PerfMap := mkPerfMap { Lookup : Z -> option string }.

(** The converter's collaborators, each a Go call whose error result is
    [None] (or the second component of a pair when the Go call returns a
    value together with an error, as the perf-map caches do). *)
Record Env := mkEnv {
  (** [addressNormalizer.Normalize(processMapping, addr)] *)
  Normalize : ProcessMapping -> Z -> option Z;
  (** [ksym.Resolve(addrs)] *)
  KsymResolve : gset Z -> option (gmap Z string);
  (** [vdsoSymbolizer.Resolve(addr, processMapping)] *)
  VdsoResolve : Z -> ProcessMapping -> option string;
  (** [perfMapCache.PerfMapForPID(pid)] *)
  PerfMapForPID : Z -> option PerfMap * option string;
  (** [jitdumpCache.JitdumpForPID(pid, path)] *)
  JitdumpForPID : Z -> string -> option PerfMap * option string;
}.

(** [Converter]; [frameDropMappingNil] is the
    [frameDrop{reason="mapping_nil"}] counter of [c.metrics]. *)
Record Converter := mkConverter {
  disableJITSymbolization : bool;
  cachedPerfMap : option PerfMap;
  cachedPerfMapErr : option string;
  cachedJitdump : gmap string (option PerfMap);
  cachedJitdumpErr : gmap string (option string);
  functionIndex : gmap string nat;
  addrLocationIndex : gmap Z nat;
  perfmapLocationIndex : gmap string nat;
  jitdumpLocationIndex : gmap string nat;
  kernelLocationIndex : gmap string nat;
  vdsoLocationIndex : gmap string nat;
  pid : Z;
  mappings : list ProcessMapping;
  kernelMapping : nat;
  frameDropMappingNil : nat;
  result : pprofProfile;
}.

(** Field updates of the mutable parts of the converter. *)
Definition set_result (c : Converter) (r : pprofProfile) : Converter :=
  mkConverter (disableJITSymbolization c) (cachedPerfMap c) (cachedPerfMapErr c)
    (cachedJitdump c) (cachedJitdumpErr c) (functionIndex c) (addrLocationIndex c)
    (perfmapLocationIndex c) (jitdumpLocationIndex c) (kernelLocationIndex c)
    (vdsoLocationIndex c) (pid c) (mappings c) (kernelMapping c)
    (frameDropMappingNil c) r.

Definition set_perfMapCache (c : Converter) (pm : option PerfMap) (e : option string) : Converter :=
  mkConverter (disableJITSymbolization c) pm e
    (cachedJitdump c) (cachedJitdumpErr c) (functionIndex c) (addrLocationIndex c)
    (perfmapLocationIndex c) (jitdumpLocationIndex c) (kernelLocationIndex c)
    (vdsoLocationIndex c) (pid c) (mappings c) (kernelMapping c)
    (frameDropMappingNil c) (result c).

Definition set_jitdumpCache (c : Converter) (jd : gmap string (option PerfMap))
    (je : gmap string (option string)) : Converter :=
  mkConverter (disableJITSymbolization c) (cachedPerfMap c) (cachedPerfMapErr c)
    jd je (functionIndex c) (addrLocationIndex c)
    (perfmapLocationIndex c) (jitdumpLocationIndex c) (kernelLocationIndex c)
    (vdsoLocationIndex c) (pid c) (mappings c) (kernelMapping c)
    (frameDropMappingNil c) (result c).

Definition set_functionIndex (c : Converter) (x : gmap string nat) : Converter :=
  mkConverter (disableJITSymbolization c) (cachedPerfMap c) (cachedPerfMapErr c)
    (cachedJitdump c) (cachedJitdumpErr c) x (addrLocationIndex c)
    (perfmapLocationIndex c) (jitdumpLocationIndex c) (kernelLocationIndex c)
    (vdsoLocationIndex c) (pid c) (mappings c) (kernelMapping c)
    (frameDropMappingNil c) (result c).

Definition set_addrLocationIndex (c : Converter) (x : gmap Z nat) : Converter :=
  mkConverter (disableJITSymbolization c) (cachedPerfMap c) (cachedPerfMapErr c)
    (cachedJitdump c) (cachedJitdumpErr c) (functionIndex c) x
    (perfmapLocationIndex c) (jitdumpLocationIndex c) (kernelLocationIndex c)
    (vdsoLocationIndex c) (pid c) (mappings c) (kernelMapping c)
    (frameDropMappingNil c) (result c).

Definition set_perfmapLocationIndex (c : Converter) (x : gmap string nat) : Converter :=
  mkConverter (disableJITSymbolization c) (cachedPerfMap c) (cachedPerfMapErr c)
    (cachedJitdump c) (cachedJitdumpErr c) (functionIndex c) (addrLocationIndex c)
    x (jitdumpLocationIndex c) (kernelLocationIndex c)
    (vdsoLocationIndex c) (pid c) (mappings c) (kernelMapping c)
    (frameDropMappingNil c) (result c).

Definition set_jitdumpLocationIndex (c : Converter) (x : gmap string nat) : Converter :=
  mkConverter (disableJITSymbolization c) (cachedPerfMap c) (cachedPerfMapErr c)
    (cachedJitdump c) (cachedJitdumpErr c) (functionIndex c) (addrLocationIndex c)
    (perfmapLocationIndex c) x (kernelLocationIndex c)
    (vdsoLocationIndex c) (pid c) (mappings c) (kernelMapping c)
    (frameDropMappingNil c) (result c).

Definition set_kernelLocationIndex (c : Converter) (x : gmap string nat) : Converter :=
  mkConverter (disableJITSymbolization c) (cachedPerfMap c) (cachedPerfMapErr c)
    (cachedJitdump c) (cachedJitdumpErr c) (functionIndex c) (addrLocationIndex c)
    (perfmapLocationIndex c) (jitdumpLocationIndex c) x
    (vdsoLocationIndex c) (pid c) (mappings c) (kernelMapping c)
    (frameDropMappingNil c) (result c).

Definition set_vdsoLocationIndex (c : Converter) (x : gmap string nat) : Converter :=
  mkConverter (disableJITSymbolization c) (cachedPerfMap c) (cachedPerfMapErr c)
    (cachedJitdump c) (cachedJitdumpErr c) (functionIndex c) (addrLocationIndex c)
    (perfmapLocationIndex c) (jitdumpLocationIndex c) (kernelLocationIndex c)
    x (pid c) (mappings c) (kernelMapping c)
    (frameDropMappingNil c) (result c).

Definition set_frameDropMappingNil (c : Converter) (n : nat) : Converter :=
  mkConverter (disableJITSymbolization c) (cachedPerfMap c) (cachedPerfMapErr c)
    (cachedJitdump c) (cachedJitdumpErr c) (functionIndex c) (addrLocationIndex c)
    (perfmapLocationIndex c) (jitdumpLocationIndex c) (kernelLocationIndex c)
    (vdsoLocationIndex c) (pid c) (mappings c) (kernelMapping c) n (result c).

Definition prof_with_location (p : pprofProfile) (ls : list pprofLocation) : pprofProfile :=
  mkProfile (p_time_nanos p) (p_duration_nanos p) (p_period p) (p_sample_type p)
    (p_period_type p) (p_mapping p) ls (p_function p) (p_sample p).

Definition prof_with_function (p : pprofProfile) (fs : list pprofFunction) : pprofProfile :=
  mkProfile (p_time_nanos p) (p_duration_nanos p) (p_period p) (p_sample_type p)
    (p_period_type p) (p_mapping p) (p_location p) fs (p_sample p).

Definition prof_with_sample (p : pprofProfile) (ss : list pprofSample) : pprofProfile :=
  mkProfile (p_time_nanos p) (p_duration_nanos p) (p_period p) (p_sample_type p)
    (p_period_type p) (p_mapping p) (p_location p) (p_function p) ss.

(** The methods of [*Converter] run in the state monad over the converter. *)
Definition CM (A : Type) : Type := ST Converter A.

(** [c.result.Location = append(c.result.Location, l)] *)
Definition appendLocation (l : pprofLocation) : CM unit :=
  do c <- st_get;
  st_put (set_result c (prof_with_location (result c) (p_location (result c) ++ [l]))).

Section Methods.

Variable E : Env.

(** [addFunction] *)
Definition addFunction (name : string) : CM nat :=
  do c <- st_get;
  match functionIndex c !! name with
  | Some f => st_ret f
  | None =>
      let fs := p_function (result c) in
      let f := mkFunction (length fs + 1)%nat name in
      let c1 := set_functionIndex c (<[name := length fs]> (functionIndex c)) in
      do _ <- st_put (set_result c1 (prof_with_function (result c1) (fs ++ [f])));
      st_ret (length fs)
  end.

(** [addKernelLocation] *)
Definition addKernelLocation (m : nat) (kernelSymbols : gmap Z string) (addr : Z) : CM nat :=
  let kernelSymbol := match kernelSymbols !! addr with
                      | Some s => s
                      | None => "not found"%string
                      end in
  do c <- st_get;
  match kernelLocationIndex c !! kernelSymbol with
  | Some l => st_ret l
  | None =>
      let id := (length (p_location (result c)) + 1)%nat in
      do f <- addFunction kernelSymbol;
      let l := mkLocation id m 0 [mkLine f] in
      do c <- st_get;
      do _ <- st_put (set_kernelLocationIndex c
                        (<[kernelSymbol := (id - 1)%nat]> (kernelLocationIndex c)));
      do _ <- appendLocation l;
      st_ret (id - 1)%nat
  end.

(** [addVDSOLocation] *)
Definition addVDSOLocation (processMapping : ProcessMapping) (m : nat) (addr : Z) : CM nat :=
  let functionName := match VdsoResolve E addr processMapping with
                      | Some s => s
                      | None => "unknown"%string
                      end in
  do c <- st_get;
  match vdsoLocationIndex c !! functionName with
  | Some l => st_ret l
  | None =>
      let id := (length (p_location (result c)) + 1)%nat in
      do f <- addFunction functionName;
      let l := mkLocation id m 0 [mkLine f] in
      do c <- st_get;
      do _ <- st_put (set_vdsoLocationIndex c
                        (<[functionName := (id - 1)%nat]> (vdsoLocationIndex c)));
      do _ <- appendLocation l;
      st_ret (id - 1)%nat
  end.

(** [addAddrLocationNoNormalization] *)
Definition addAddrLocationNoNormalization (m : nat) (addr : Z) : CM nat :=
  do c <- st_get;
  match addrLocationIndex c !! addr with
  | Some l => st_ret l
  | None =>
      let id := (length (p_location (result c)) + 1)%nat in
      let l := mkLocation id m addr [] in
      do _ <- st_put (set_addrLocationIndex c (<[addr := (id - 1)%nat]> (addrLocationIndex c)));
      do _ <- appendLocation l;
      st_ret (id - 1)%nat
  end.

(** [addAddrLocation]: on a normalization error the raw address is used. *)
Definition addAddrLocation (processMapping : ProcessMapping) (m : nat) (addr : Z) : CM nat :=
  let normalizedAddress := match Normalize E processMapping addr with
                           | Some a => a
                           | None => addr
                           end in
  addAddrLocationNoNormalization m normalizedAddress.

(** [perfMap]: memoised [perfMapCache.PerfMapForPID(c.pid)]. *)
Definition perfMap : CM (option PerfMap * option string) :=
  do c <- st_get;
  if bool_decide (is_Some (cachedPerfMap c)) || bool_decide (is_Some (cachedPerfMapErr c))
  then st_ret (cachedPerfMap c, cachedPerfMapErr c)
  else
    let r := PerfMapForPID E (pid c) in
    do _ <- st_put (set_perfMapCache c r.1 r.2);
    st_ret r.

(** [addPerfMapLocation] *)
Definition addPerfMapLocation (m : nat) (addr : Z) : CM nat :=
  do c <- st_get;
  if disableJITSymbolization c then addAddrLocationNoNormalization m addr else
  do r <- perfMap;
  match r.1 with
  | None => addAddrLocationNoNormalization m addr
  | Some pm =>
      match Lookup pm addr with
      | None => addAddrLocationNoNormalization m addr
      | Some symbol =>
          do c <- st_get;
          match perfmapLocationIndex c !! symbol with
          | Some l => st_ret l
          | None =>
              let id := (length (p_location (result c)) + 1)%nat in
              do f <- addFunction symbol;
              let l := mkLocation id m 0 [mkLine f] in
              do c <- st_get;
              do _ <- st_put (set_perfmapLocationIndex c
                        (<[symbol := (id - 1)%nat]> (perfmapLocationIndex c)));
              do _ <- appendLocation l;
              st_ret (id - 1)%nat
          end
      end
  end.

(** [jitdump]: memoised [jitdumpCache.JitdumpForPID(c.pid, path)]; both
    results are stored, so a path is looked up at most once. *)
Definition jitdump (path : string) : CM (option PerfMap * option string) :=
  do c <- st_get;
  match cachedJitdump c !! path, cachedJitdumpErr c !! path with
  | None, None =>
      let r := JitdumpForPID E (pid c) path in
      do _ <- st_put (set_jitdumpCache c (<[path := r.1]> (cachedJitdump c))
                                         (<[path := r.2]> (cachedJitdumpErr c)));
      st_ret r
  | j, e => st_ret (default None j, default None e)
  end.

(** [addJITDumpLocation] *)
Definition addJITDumpLocation (m : nat) (addr : Z) (path : string) : CM nat :=
  do c <- st_get;
  if disableJITSymbolization c then addAddrLocationNoNormalization m addr else
  do r <- jitdump path;
  match r.1 with
  | None => addAddrLocationNoNormalization m addr
  | Some jd =>
      match Lookup jd addr with
      | None => addAddrLocationNoNormalization m addr
      | Some symbol =>
          do c <- st_get;
          match jitdumpLocationIndex c !! symbol with
          | Some l => st_ret l
          | None =>
              let id := (length (p_location (result c)) + 1)%nat in
              do f <- addFunction symbol;
              let l := mkLocation id m 0 [mkLine f] in
              do c <- st_get;
              do _ <- st_put (set_jitdumpLocationIndex c
                        (<[symbol := (id - 1)%nat]> (jitdumpLocationIndex c)));
              do _ <- appendLocation l;
              st_ret (id - 1)%nat
          end
      end
  end.

(** [mappingForAddr]: the index of the first mapping whose [[Start, Limit)]
    contains [addr], or [-1]. *)
Fixpoint mappingForAddr_from (i : nat) (ms : list pprofMapping) (addr : Z) : Z :=
  match ms with
  | [] => -1
  | m :: ms' =>
      if (m_start m <=? addr) && (addr <? m_limit m) then Z.of_nat i
      else mappingForAddr_from (S i) ms' addr
  end.

Definition mappingForAddr (ms : list pprofMapping) (addr : Z) : Z :=
  mappingForAddr_from 0 ms addr.

(** The user-stack loop of [Convert]. [None] is a Go panic (an index out
    of range in [c.mappings[mappingIndex]] or [c.result.Mapping[mappingIndex]]). *)
Fixpoint convertUserStack (us : list Z) (locs : list nat) : CM (option (list nat)) :=
  match us with
  | [] => st_ret (Some locs)
  | addr :: us' =>
      do c <- st_get;
      let mappingIndex := mappingForAddr (p_mapping (result c)) addr in
      if mappingIndex =? -1 then
        (* c.metrics.frameDrop.WithLabelValues(labelFrameDropReasonMappingNil).Inc() *)
        do _ <- st_put (set_frameDropMappingNil c (S (frameDropMappingNil c)));
        convertUserStack us' locs
      else
        let i := Z.to_nat mappingIndex in
        match mappings c !! i, p_mapping (result c) !! i with
        | Some processMapping, Some pprofMapping =>
            do l <- (if String.eqb (m_file pprofMapping) "[vdso]" then
                       addVDSOLocation processMapping i addr
                     else if String.eqb (m_file pprofMapping) "jit" then
                       addPerfMapLocation i addr
                     else if HasSuffix (m_file pprofMapping) ".dump" then
                       addJITDumpLocation i addr (m_file pprofMapping)
                     else addAddrLocation processMapping i addr);
            convertUserStack us' (locs ++ [l])
        | _, _ => st_ret None
        end
  end.

(** The kernel-stack loop of [Convert]. *)
Fixpoint convertKernelStack (kernelSymbols : gmap Z string) (ks : list Z)
    (locs : list nat) : CM (list nat) :=
  match ks with
  | [] => st_ret locs
  | addr :: ks' =>
      do c <- st_get;
      do l <- addKernelLocation (kernelMapping c) kernelSymbols addr;
      convertKernelStack kernelSymbols ks' (locs ++ [l])
  end.

(** The sample loop of [Convert]. *)
Fixpoint convertSamples (kernelSymbols : gmap Z string) (rawData : list RawSample)
    : CM (option unit) :=
  match rawData with
  | [] => st_ret (Some tt)
  | sample :: rest =>
      do ks <- convertKernelStack kernelSymbols (rs_kernel_stack sample) [];
      do us <- convertUserStack (rs_user_stack sample) ks;
      match us with
      | None => st_ret None
      | Some locs =>
          let pprofSample := mkSample [int64_of_uint64 (rs_value sample)] locs in
          do c <- st_get;
          do _ <- st_put (set_result c (prof_with_sample (result c)
                                          (p_sample (result c) ++ [pprofSample])));
          convertSamples kernelSymbols rest
      end
  end.

(** The set [kernelAddresses] of all kernel-stack addresses. *)
Definition kernelAddressesOf (rawData : list RawSample) : gset Z :=
  foldl (fun acc sample =>
           foldl (fun acc addr => {[addr]} ∪ acc) acc (rs_kernel_stack sample))
        ∅ rawData.

(** [Convert]: [Some (profile, err)] is Go's return, [None] a panic. *)
Definition Convert (rawData : list RawSample) : CM (option (pprofProfile * option string)) :=
  let kernelAddresses := kernelAddressesOf rawData in
  let kernelSymbols := match KsymResolve E kernelAddresses with
                       | Some m => m
                       | None => ∅
                       end in
  do r <- convertSamples kernelSymbols rawData;
  match r with
  | None => st_ret None
  | Some _ => do c <- st_get; st_ret (Some (result c, None))
  end.

End Methods.

(** Modelled from the spec: [process.Mappings.ConvertToPprof] (package
    process, not part of these sources). "Convert the process mappings to
    profile mappings (preserving order)"; profile mapping ids are 1-based
    and the fields [start], [limit], [offset], [file], [build_id] are
    copied. *)
Fixpoint convertToPprof_from (i : nat) (ms : list ProcessMapping) : list pprofMapping :=
  match ms with
  | [] => []
  | pm :: ms' =>
      mkMapping (S i) (pm_start pm) (pm_limit pm) (pm_offset pm) (pm_file pm)
                (pm_build_id pm) :: convertToPprof_from (S i) ms'
  end.

Definition ConvertToPprof (ms : list ProcessMapping) : list pprofMapping :=
  convertToPprof_from 0 ms.

(** [NewConverter]. [captureTime] is [captureTime.UnixNano()], [now] the
    clock reading taken by [time.Since(captureTime)] during construction,
    and [frameDropMappingNil0] the current value of the shared metrics
    counter. *)
Definition NewConverter (disableJIT : bool) (pid0 : Z) (ms : list ProcessMapping)
    (captureTime now periodNS : Z) (frameDropMappingNil0 : nat) : Converter :=
  let pprofMappings := ConvertToPprof ms in
  let kernelMapping := mkMapping (length pprofMappings + 1)%nat 0 0 0
                                 "[kernel.kallsyms]" "" in
  mkConverter disableJIT None None ∅ ∅ ∅ ∅ ∅ ∅ ∅ ∅ pid0 ms
    (length pprofMappings) frameDropMappingNil0
    (mkProfile captureTime (now - captureTime) periodNS
       [mkValueType "samples" "count"] (mkValueType "cpu" "nanoseconds")
       (pprofMappings ++ [kernelMapping]) [] [] []).

(* --------------------------------------------------------------------- *)
(** *** The dedup classes of locations *)

(** The dedup key of each class: kernel symbol, VDSO function name,
    perf-map symbol, jitdump symbol, address. *)
Inductive LocKey :=
| KKernel (s : string)
| KVdso (s : string)
| KPerf (s : string)
| KJit (s : string)
| KAddr (a : Z).

#[global] Instance LocKey_eq_dec : EqDecision LocKey.
Proof. solve_decision. Defined.

(** The class and key of a location, read off the profile: address-only
    locations are keyed by their address; a location with one line is a
    kernel location when it points to the kernel mapping, otherwise its
    class is given by its mapping's file exactly as [Convert] dispatches. *)
Definition loc_class (Ms : list pprofMapping) (Fs : list pprofFunction) (K : nat)
    (l : pprofLocation) : option LocKey :=
  match loc_line l with
  | [] => Some (KAddr (loc_address l))
  | [ln] =>
      match Fs !! line_function ln with
      | None => None
      | Some f =>
          if Nat.eqb (loc_mapping l) K then Some (KKernel (fn_name f)) else
          match Ms !! loc_mapping l with
          | None => None
          | Some m =>
              if String.eqb (m_file m) "[vdso]" then Some (KVdso (fn_name f))
              else if String.eqb (m_file m) "jit" then Some (KPerf (fn_name f))
              else if HasSuffix (m_file m) ".dump" then Some (KJit (fn_name f))
              else None
          end
      end
  | _ => None
  end.

(** The dedup index of the converter that holds a key. *)
Definition idx_lookup (c : Converter) (k : LocKey) : option nat :=
  match k with
  | KKernel s => kernelLocationIndex c !! s
  | KVdso s => vdsoLocationIndex c !! s
  | KPerf s => perfmapLocationIndex c !! s
  | KJit s => jitdumpLocationIndex c !! s
  | KAddr a => addrLocationIndex c !! a
  end.

(** The symbol a kernel address is looked up under during [Convert]. *)
Definition kernelSymbolFor (E : Env) (rawData : list RawSample) (addr : Z) : string :=
  let kernelSymbols := match KsymResolve E (kernelAddressesOf rawData) with
                       | Some m => m
                       | None => ∅
                       end in
  match kernelSymbols !! addr with
  | Some s => s
  | None => "not found"
  end.

(** [m] contains [addr]: [m.Start <= addr && addr < m.Limit]. *)
Definition contains (m : pprofMapping) (addr : Z) : bool :=
  (m_start m <=? addr) && (addr <? m_limit m).

Definition mapped (Ms : list pprofMapping) (addr : Z) : bool :=
  existsb (fun m => contains m addr) Ms.

(** Number of user frames without a mapping. *)
Definition unmappedCount (Ms : list pprofMapping) (rawData : list RawSample) : nat :=
  sum_list_with (fun rs => length (List.filter (fun a => negb (mapped Ms a)) (rs_user_stack rs)))
                rawData.

(* --------------------------------------------------------------------- *)
(** *** The converter invariant *)

Record Inv (c : Converter) : Prop := {
  inv_kernel : kernelMapping c = length (mappings c);
  inv_mlen : length (p_mapping (result c)) = S (length (mappings c));
  inv_kmap : forall m, p_mapping (result c) !! kernelMapping c = Some m ->
             m_start m = 0 /\ m_limit m = 0;
  inv_fid : forall i f, p_function (result c) !! i = Some f -> fn_id f = S i;
  inv_findex : forall s i, functionIndex c !! s = Some i <->
               exists f, p_function (result c) !! i = Some f /\ fn_name f = s;
  inv_loc : forall i l, p_location (result c) !! i = Some l ->
            loc_id l = S i /\ (loc_mapping l < length (p_mapping (result c)))%nat /\
            Forall (fun ln => line_function ln < length (p_function (result c)))%nat
                   (loc_line l);
  inv_index : forall k i, idx_lookup c k = Some i <->
              exists l, p_location (result c) !! i = Some l /\
              loc_class (p_mapping (result c)) (p_function (result c)) (kernelMapping c) l
                = Some k;
}.

(** How the converter evolves: the static parts stay, the tables only
    grow at their ends, and a key once indexed keeps its location. *)
Record grows (c c' : Converter) : Prop := {
  gr_mappings : mappings c' = mappings c;
  gr_kernel : kernelMapping c' = kernelMapping c;
  gr_disable : disableJITSymbolization c' = disableJITSymbolization c;
  gr_pid : pid c' = pid c;
  gr_pmapping : p_mapping (result c') = p_mapping (result c);
  gr_time : p_time_nanos (result c') = p_time_nanos (result c);
  gr_duration : p_duration_nanos (result c') = p_duration_nanos (result c);
  gr_loc : exists ls, p_location (result c') = p_location (result c) ++ ls;
  gr_fun : exists fs, p_function (result c') = p_function (result c) ++ fs;
  gr_index : forall k i, idx_lookup c k = Some i -> idx_lookup c' k = Some i;
}.

(** What an [add*Location] call leaves alone besides [grows]. *)
Definition quiet (c c' : Converter) : Prop :=
  frameDropMappingNil c' = frameDropMappingNil c /\ p_sample (result c') = p_sample (result c).

End Pprof.

(* ===================================================================== *)
(** ** pkg/debuginfo: the debuginfo manager *)
(* ===================================================================== *)

Module Debuginfo.

#[local] Set Warnings "-register-all".

(** [objectfile.ObjectFile] (the fields the manager reads). *)
Inductive ObjectFile := mkObjectFile {
  of_path : string;
  of_build_id : string;
  of_modtime : Z;
  of_size : Z;
  of_debug_file : option ObjectFile;
}.

(** gRPC status codes the manager distinguishes. *)
Inductive Code := OK | Canceled | Unknown | NotFound | AlreadyExists | Unavailable | Internal.

(** A backend error: a gRPC status ([status.FromError] succeeds) or any
    other error. *)
Inductive RPCError := StatusErr (code : Code) | OtherErr (msg : string).

Inductive UploadStrategy :=
| UPLOAD_STRATEGY_UNSPECIFIED
| UPLOAD_STRATEGY_GRPC
| UPLOAD_STRATEGY_SIGNED_URL
| UPLOAD_STRATEGY_OTHER (n : Z).

(** [debuginfopb.UploadInstructions]. *)
Record UploadInstructions := mkUploadInstructions {
  UploadStrategy_ : UploadStrategy;
  UploadId : string;
  SignedUrl : string;
}.

(** The should-initiate cache: a no-op cache when caching is disabled,
    otherwise a write-TTL cache; [si_entries] are its live entries. *)
Inductive SICache := SINoop | SIBurrow (si_entries : gset string).

Definition si_GetIfPresent (ch : SICache) (k : string) : bool :=
  match ch with
  | SINoop => false
  | SIBurrow es => bool_decide (k ∈ es)
  end.

Definition si_Put (ch : SICache) (k : string) : SICache :=
  match ch with
  | SINoop => SINoop
  | SIBurrow es => SIBurrow ({[k]} ∪ es)
  end.

(** The hash cache, keyed by [hashCacheKey{buildID, modtime}]. *)
Inductive HashCache := HNoop | HBurrow (h_entries : gmap (string * Z) string).

Definition h_GetIfPresent (ch : HashCache) (k : string * Z) : option string :=
  match ch with
  | HNoop => None
  | HBurrow es => es !! k
  end.

Definition h_Put (ch : HashCache) (k : string * Z) (v : string) : HashCache :=
  match ch with
  | HNoop => HNoop
  | HBurrow es => HBurrow (<[k := v]> es)
  end.

(** Observable calls to the backend and body transfers. *)
Inductive Event :=
| EvShouldInitiateUpload (buildID : string)
| EvInitiateUpload (buildID : string)
| EvUploadBody (buildID : string)
| EvMarkUploadFinished (buildID : string).

(** The manager's mutable state and the trace of its backend calls. *)
Record Manager := mkManager {
  shouldInitiateCache : SICache;
  hashCache : HashCache;
  events : list Event;
}.

(** [New]: both caches are no-ops when [cacheDisabled]. *)
Definition New (cacheDisabled : bool) : Manager :=
  if cacheDisabled then mkManager SINoop HNoop []
  else mkManager (SIBurrow ∅) (HBurrow ∅) [].

(** The manager's collaborators; an error is [None] or [Some msg] as the
    Go call's shape dictates. *)
Record DEnv := mkDEnv {
  (** [debuginfoClient.ShouldInitiateUpload]: [None] is an RPC error. *)
  ShouldInitiateUpload : string -> option bool;
  (** [debuginfoClient.InitiateUpload(buildID, hash, size)] *)
  InitiateUpload : string -> string -> Z -> RPCError + UploadInstructions;
  (** [debuginfoClient.MarkUploadFinished]: [Some msg] is an error. *)
  MarkUploadFinished : string -> string -> option string;
  (** [dbg.Reader()] succeeds *)
  ReaderOk : ObjectFile -> bool;
  (** [hash.Reader(r)] *)
  HashReader : ObjectFile -> option string;
  (** [di.uploadViaGRPC] and [di.uploadViaSignedURL]: [Some msg] is an error. *)
  UploadViaGRPC : UploadInstructions -> ObjectFile -> option string;
  UploadViaSignedURL : string -> ObjectFile -> Z -> option string;
  (** [di.ExtractOrFind(ctx, root, src)] *)
  ExtractOrFind : string -> ObjectFile -> option ObjectFile;
  (** [di.uploadTaskTokens.Acquire(ctx, 1)] succeeds *)
  AcquireToken : bool;
}.

Definition MM (A : Type) : Type := ST Manager A.

Definition emit (ev : Event) : MM unit :=
  do m <- st_get;
  st_put (mkManager (shouldInitiateCache m) (hashCache m) (events m ++ [ev])).

Definition putShouldInitiate (buildID : string) : MM unit :=
  do m <- st_get;
  st_put (mkManager (si_Put (shouldInitiateCache m) buildID) (hashCache m) (events m)).

Definition putHash (k : string * Z) (h : string) : MM unit :=
  do m <- st_get;
  st_put (mkManager (shouldInitiateCache m) (h_Put (hashCache m) k h) (events m)).

Section ManagerMethods.

Variable E : DEnv.

(** [shouldInitiate] *)
Definition shouldInitiate (buildID : string) : MM bool :=
  do m <- st_get;
  if si_GetIfPresent (shouldInitiateCache m) buildID then st_ret false else
  do _ <- emit (EvShouldInitiateUpload buildID);
  match ShouldInitiateUpload E buildID with
  | None => st_ret true
  | Some false =>
      do _ <- putShouldInitiate buildID;
      st_ret false
  | Some true => st_ret true
  end.

(** [uploadFile]: the dispatch on the upload strategy; a body transfer
    is started for the two real strategies. *)
Definition uploadFile (buildID : string) (ui : UploadInstructions) (dbg : ObjectFile)
    (size : Z) : MM (option string) :=
  match UploadStrategy_ ui with
  | UPLOAD_STRATEGY_GRPC =>
      do _ <- emit (EvUploadBody buildID);
      st_ret (UploadViaGRPC E ui dbg)
  | UPLOAD_STRATEGY_SIGNED_URL =>
      do _ <- emit (EvUploadBody buildID);
      st_ret (UploadViaSignedURL E (SignedUrl ui) dbg size)
  | UPLOAD_STRATEGY_UNSPECIFIED =>
      st_ret (Some "upload strategy unspecified, must set one of UPLOAD_STRATEGY_GRPC or UPLOAD_STRATEGY_SIGNED_URL"%string)
  | UPLOAD_STRATEGY_OTHER _ => st_ret (Some "unknown upload strategy"%string)
  end.

(** [upload]: [None] is a nil error. *)
Definition upload (dbg : ObjectFile) : MM (option string) :=
  let buildID := of_build_id dbg in
  do should <- shouldInitiate buildID;
  if negb should then st_ret None else
  let key := (buildID, of_modtime dbg) in
  let size := of_size dbg in
  do m <- st_get;
  do hr <- (match h_GetIfPresent (hashCache m) key with
            | Some h => st_ret (inr h)
            | None =>
                if negb (ReaderOk E dbg)
                then st_ret (inl "failed to obtain reader for object file"%string)
                else match HashReader E dbg with
                     | None => st_ret (inl "hash debuginfos"%string)
                     | Some h => do _ <- putHash key h; st_ret (inr h)
                     end
            end);
  match hr with
  | inl err => st_ret (Some err)
  | inr h =>
      do _ <- emit (EvInitiateUpload buildID);
      match InitiateUpload E buildID h size with
      | inl (StatusErr AlreadyExists) =>
          do _ <- putShouldInitiate buildID;
          st_ret None
      | inl _ => st_ret (Some "initiate upload"%string)
      | inr ui =>
          if negb (ReaderOk E dbg)
          then st_ret (Some "failed to obtain reader for object file"%string)
          else
            do err <- uploadFile buildID ui dbg size;
            match err with
            | Some _ => st_ret (Some "upload debuginfo"%string)
            | None =>
                do _ <- emit (EvMarkUploadFinished buildID);
                match MarkUploadFinished E buildID (UploadId ui) with
                | Some _ => st_ret (Some "mark upload finished"%string)
                | None => st_ret None
                end
            end
      end
  end.

(** [Upload], for one caller: acquire a token, then run [upload] (the
    single-flight group runs it once for this caller). *)
Definition Upload (dbg : ObjectFile) : MM (option string) :=
  if negb (AcquireToken E) then st_ret (Some "failed to acquire upload task token"%string)
  else upload dbg.

(** [EnsureUploaded]. The write [src.DebugFile = dbg] to the caller's
    object is not observed by the properties below and is left out. *)
Definition EnsureUploaded (root : string) (src : ObjectFile) : MM (option string) :=
  do should <- shouldInitiate (of_build_id src);
  if negb should then st_ret None else
  match of_debug_file src with
  | Some dbg => Upload dbg
  | None =>
      match ExtractOrFind E root src with
      | None => st_ret (Some "extract or find"%string)
      | Some dbg => Upload dbg
      end
  end.

End ManagerMethods.

(** The collaborators of [ExtractOrFind] and [Extract]. *)
Record XEnv := mkXEnv {
  (** [di.Finder.Find(ctx, root, src)]: [None] is an error *)
  Find : string -> ObjectFile -> option string;
  (** [di.objFilePool.Open(path)] *)
  PoolOpen : string -> option ObjectFile;
  (** [src.ELF()] followed by [hasTextSection(ef)]: [None] is an ELF error *)
  HasTextSection : ObjectFile -> option bool;
  (** [di.extract(ctx, buildID, src)] run through the single-flight group *)
  extract : string -> ObjectFile -> option ObjectFile;
}.

(** [Extract]: [inl] carries the error. *)
Definition Extract (X : XEnv) (stripDebuginfos : bool) (src : ObjectFile)
    : string + ObjectFile :=
  let buildID := of_build_id src in
  match HasTextSection X src with
  | None => inl "failed to get ELF file"%string
  | Some binaryHasTextSection =>
      if stripDebuginfos && binaryHasTextSection then
        match extract X buildID src with
        | None => inl "extract"%string
        | Some dbg => inr dbg
        end
      else inr src
  end.

(** [ExtractOrFind]: a separately installed debuginfo file that opens is
    used; otherwise the debuginfo is extracted. *)
Definition ExtractOrFind_ (X : XEnv) (stripDebuginfos : bool) (root : string)
    (src : ObjectFile) : string + ObjectFile :=
  let fallback :=
    match Extract X stripDebuginfos src with
    | inl _ => inl "failed to strip debuginfo"%string
    | inr dbg => inr dbg
    end in
  match Find X root src with
  | Some dbgInfoPath =>
      if negb (String.eqb dbgInfoPath "") then
        match PoolOpen X dbgInfoPath with
        | Some dbgInfoFile => inr dbgInfoFile
        | None => fallback
        end
      else fallback
  | None => fallback
  end.

(** The collaborators of [uploadViaSignedURL]: building the PUT request
    and [http.DefaultClient.Do], whose response is its status code. *)
Record HTTPEnv := mkHTTPEnv {
  NewRequestOk : string -> bool;
  Do : string -> Z -> option Z;
}.

(** [uploadViaSignedURL]: [None] is a nil error; Go's [/] on [int]
    truncates, as [Z.quot] does. *)
Definition uploadViaSignedURL (H : HTTPEnv) (url : string) (size : Z) : option string :=
  if negb (NewRequestOk H url) then Some "create request"%string else
  match Do H url size with
  | None => Some "do upload request"%string
  | Some statusCode =>
      if negb (Z.quot statusCode 100 =? 2) then Some "unexpected status code"%string
      else None
  end.

End Debuginfo.

(* ===================================================================== *)
(** ** pkg/vdso: the VDSO symbol cache *)
(* ===================================================================== *)

Module Vdso.

(** An ELF dynamic symbol. *)
Record Symbol := mkSymbol { sym_name : string; sym_value : Z; sym_size : Z }.

(** An object file opened through the pool, and its ELF view. *)
Record VObj := mkVObj { vobj_path : string }.
Record ElfFile := mkElfFile { elf_of : VObj }.

(** [Cache]: the symbol searcher (built from the dynamic symbols) and the
    path of the file it was read from. *)
Record Cache := mkCache { searcher : list Symbol; f : string }.

(** Collaborators of [NewCache]. *)
Record VEnv := mkVEnv {
  (** [metadata.KernelRelease()] *)
  KernelRelease : option string;
  (** [objFilePool.Open(path)] *)
  Open : string -> option VObj;
  (** [obj.ELF()] *)
  ELF : VObj -> option ElfFile;
  (** [ef.DynamicSymbols()] *)
  DynamicSymbols : ElfFile -> option (list Symbol);
}.

(** [fmt.Sprintf("/usr/lib/modules/%s/vdso/%s", kernelVersion, vdso)] *)
Definition vdsoPath (kernelVersion vdso : string) : string :=
  ("/usr/lib/modules/" ++ kernelVersion ++ "/vdso/" ++ vdso)%string.

(** The probing loop of [NewCache]: [(obj, merr, path)] after the loop;
    [merr] collects one message per failed open. *)
Fixpoint probe (V : VEnv) (kernelVersion : string) (cands : list string)
    (merr : list string) (path : string) : option VObj * list string * string :=
  match cands with
  | [] => (None, merr, path)
  | vdso :: rest =>
      let path := vdsoPath kernelVersion vdso in
      match Open V path with
      | None => probe V kernelVersion rest
                  (merr ++ ["failed to open elf file: " ++ path]%string) path
      | Some obj => (Some obj, merr, path)
      end
  end.

(** [NewCache]: [inl] carries the error. *)
Definition NewCache (V : VEnv) : list string + Cache :=
  match KernelRelease V with
  | None => inl ["kernel release"%string]
  | Some kernelVersion =>
      match probe V kernelVersion ["vdso.so"; "vdso64.so"]%string [] "" with
      | (None, merr, _) => inl merr
      | (Some obj, _, path) =>
          match ELF V obj with
          | None => inl ["failed to get elf file: " ++ path]%string
          | Some ef =>
              match DynamicSymbols V ef with
              | None => inl ["dynamic symbols"%string]
              | Some syms => inr (mkCache syms path)
              end
          end
      end
  end.

(** [Resolve], the method of [*Cache]: [c] is [nil] when [None], [m] likewise. [Normalize]
    is [m.Normalize] and [Search] the searcher's [Search]; the result is
    the Go pair (name, error). *)
Definition Resolve (Normalize : Pprof.ProcessMapping -> Z -> option Z)
    (Search : list Symbol -> Z -> option string)
    (c : option Cache) (addr : Z) (m : option Pprof.ProcessMapping)
    : string * option string :=
  match c with
  | None => (""%string, None)
  | Some c =>
      match m with
      | None => (""%string, Some "mapping is nil"%string)
      | Some m =>
          match Normalize m addr with
          | None => (""%string, Some "normalize"%string)
          | Some addr =>
              match Search (searcher c) addr with
              | None => (""%string, Some "not found"%string)
              | Some sym => (sym, None)
              end
          end
      end
  end.

End Vdso.

(* ===================================================================== *)
(** ** cmd/eh-frame: the table printing tool *)
(* ===================================================================== *)

Module EhFrame.

(** The command-line [flags] as [kong.Parse] fills them. *)
Record flags := mkFlags {
  Executable : string;
  Compact : bool;
  RelativePC : Z;
}.

(** What the tool writes: a line on stderr or stdout, or the table printed
    by [PrintTable] for an executable, format and PC filter. *)
Inductive Output :=
| Stderr (line : string)
| Stdout (line : string)
| Table (executablePath : string) (compact : bool) (pc : option Z).

(** The outcome of [kong.Parse(&flags)] on the command line: the parsed
    flags, or kong ending the process itself (printing the help on
    [--help], or a usage error on a bad command line) with its text, the
    stream it goes to and the exit status. *)
Inductive ParseResult :=
| Parsed (fl : flags)
| ParseExit (text : string) (toStderr : bool) (status : Z).

(** The tool's collaborators: [kong.Parse], and
    [ptb.PrintTable(os.Stdout, executablePath, compact, pc)], where
    [Some msg] is an error. *)
Record MEnv := mkMEnv {
  Parse : list string -> ParseResult;
  PrintTable : string -> bool -> option Z -> option string;
}.

(** [main] on the command-line arguments: the outputs and the exit status
    (0 when [main] returns). *)
Definition main (M : MEnv) (args : list string) : list Output * Z :=
  match Parse M args with
  | ParseExit text toStderr status =>
      ([if toStderr then Stderr text else Stdout text], status)
  | Parsed fl =>
      let executablePath := Executable fl in
      if String.eqb executablePath "" then ([Stderr "The executable argument is required"], 1)
      else
        let pc := if negb (RelativePC fl =? 0) then Some (RelativePC fl) else None in
        match PrintTable M executablePath (Compact fl) pc with
        | None => ([Table executablePath (Compact fl) pc], 0)
        | Some err => ([Table executablePath (Compact fl) pc; Stdout ("failed with: " ++ err)], 0)
        end
  end.

End EhFrame.

(* ===================================================================== *)
(** ** Concrete inputs *)
(* ===================================================================== *)

Module Examples.
Import Pprof.

(** A process with one perf-map region (file ["jit"]) and one jitdump
    region; the perf map and the jitdump file both name every address
    ["foo"]. *)
Definition jitEnv : Env :=
  mkEnv (fun _ a => Some a) (fun _ => Some ∅) (fun _ _ => None)
    (fun _ => (Some (mkPerfMap (fun _ => Some "foo"%string)), None))
    (fun _ _ => (Some (mkPerfMap (fun _ => Some "foo"%string)), None)).

Definition jitMappings : list ProcessMapping :=
  [mkProcessMapping 100 200 0 "jit" ""; mkProcessMapping 200 300 0 "/tmp/jit-7.dump" ""].

(** One sample whose user stack has a frame in each region. *)
Definition jitSamples : list RawSample := [mkRawSample 1 [150; 250] []].

(** A kernel symbolizer that fails, with one native mapping. *)
Definition plainEnv : Env :=
  mkEnv (fun pm a => Some (a - pm_start pm + pm_offset pm)) (fun _ => None)
    (fun _ _ => None) (fun _ => (None, Some "no perf map"%string))
    (fun _ _ => (None, Some "no jitdump"%string)).

Definition plainMappings : list ProcessMapping := [mkProcessMapping 4096 8192 0 "/bin/app" "b1"].

(** Two samples sharing the kernel address 7; the first has a user frame
    at the start of the mapping, the second one at its limit; the second
    value is above [2^63]. *)
Definition plainSamples : list RawSample :=
  [mkRawSample 3 [4096] [7; 9]; mkRawSample (2 ^ 63 + 5) [8192] [7]].

(** Fresh converters for the two processes (capture time 10, clock
    reading 15 at construction), and the runs of [Convert] on them. *)
Definition jitConverter : Converter := NewConverter false 1 jitMappings 10 15 1 0.
Definition jitRun := Convert jitEnv jitSamples jitConverter.
Definition plainConverter : Converter := NewConverter false 1 plainMappings 10 15 1 0.
Definition plainRun := Convert plainEnv plainSamples plainConverter.

(** The spec's single "JIT symbol name" key of a location: the symbol
    of a one-line location in a perf-map or jitdump region. *)
Definition jitSymbolKey (Ms : list pprofMapping) (Fs : list pprofFunction)
    (l : pprofLocation) : option string :=
  match loc_line l with
  | [ln] =>
      match Fs !! line_function ln, Ms !! loc_mapping l with
      | Some f, Some m =>
          if String.eqb (m_file m) "jit" || HasSuffix (m_file m) ".dump"
          then Some (fn_name f) else None
      | _, _ => None
      end
  | _ => None
  end.

(** A debuginfo backend that asks for every upload and then reports that
    the object already exists. *)
Definition alreadyExistsEnv : Debuginfo.DEnv :=
  Debuginfo.mkDEnv (fun _ => Some true)
    (fun _ _ _ => inl (Debuginfo.StatusErr Debuginfo.AlreadyExists))
    (fun _ _ => None) (fun _ => true) (fun _ => Some "h1"%string)
    (fun _ _ => None) (fun _ _ _ => None) (fun _ src => Some src) true.

(** A backend that answers "no" to every should-initiate request. *)
Definition declineEnv : Debuginfo.DEnv :=
  Debuginfo.mkDEnv (fun _ => Some false)
    (fun _ _ _ => inl (Debuginfo.StatusErr Debuginfo.Internal))
    (fun _ _ => None) (fun _ => true) (fun _ => Some "h1"%string)
    (fun _ _ => None) (fun _ _ _ => None) (fun _ src => Some src) true.

Definition debugObject : Debuginfo.ObjectFile :=
  Debuginfo.mkObjectFile "/usr/bin/app" "abc123" 42 4096 None.

(** Kernel release ["6.1"]; only the path the spec names can be opened. *)
Definition specPathVdso : Vdso.VEnv :=
  Vdso.mkVEnv (Some "6.1"%string)
    (fun path => if String.eqb path "/usr/lib/modules/6.1/vdso.so"
                 then Some (Vdso.mkVObj path) else None)
    (fun obj => Some (Vdso.mkElfFile obj)) (fun _ => Some []).

(** Kernel release ["6.1"]; only [vdso64.so] of the real layout opens. *)
Definition vdso64Only : Vdso.VEnv :=
  Vdso.mkVEnv (Some "6.1"%string)
    (fun path => if String.eqb path "/usr/lib/modules/6.1/vdso/vdso64.so"
                 then Some (Vdso.mkVObj path) else None)
    (fun obj => Some (Vdso.mkElfFile obj)) (fun _ => Some []).

(** A parser for the eh-frame tool: the empty command line parses to
    empty flags, [--help] makes kong print the usage and exit 0, anything
    else parses to executable [/bin/true] with relative PC 4096; the table
    print answers [printResult]. *)
Definition toolEnv (printResult : option string) : EhFrame.MEnv :=
  EhFrame.mkMEnv (fun args => match args with
                      | [] => EhFrame.Parsed (EhFrame.mkFlags "" false 0)
                      | ["--help"%string] => EhFrame.ParseExit "Usage: eh-frame" false 0
                      | _ => EhFrame.Parsed (EhFrame.mkFlags "/bin/true" false 4096)
                      end)
         (fun _ _ _ => printResult).

End Examples.

(* ===================================================================== *)
(** ** Facts about the converter *)
(* ===================================================================== *)

Module PprofFacts.
Import Pprof Examples.

Ltac st_unfold := unfold st_bind, st_get, st_put, st_ret in *.

Lemma mappingForAddr_from_spec (i : nat) (ms : list pprofMapping) (a : Z) :
  (mappingForAddr_from i ms a = -1 /\ mapped ms a = false) \/
  (exists (j : nat) m, mappingForAddr_from i ms a = Z.of_nat (i + j) /\ ms !! j = Some m /\
     contains m a = true /\
     forall (j' : nat) m', (j' < j)%nat -> ms !! j' = Some m' -> contains m' a = false).
Proof.
  revert i. induction ms as [|m ms IH]; intros i; simpl.
  - left. auto.
  - unfold mapped in *. simpl. destruct (contains m a) eqn:Hc; unfold contains in Hc; rewrite Hc.
    + right. exists 0%nat, m. split; [f_equal; lia|]. split; [done|]. split; [done|].
      intros j' m' Hj'. lia.
    + destruct (IH (S i)) as [[H1 H2] | (j & m' & H1 & H2 & H3 & H4)].
      * left. unfold mapped in H2. rewrite H1, H2. auto.
      * right. exists (S j), m'. split; [rewrite H1; f_equal; lia|]. split; [done|].
        split; [done|]. intros [|j''] m'' Hj Hl; simpl in Hl.
        -- injection Hl as <-. unfold contains. exact Hc.
        -- apply (H4 j''); [lia|done].
Qed.

Lemma mappingForAddr_spec (ms : list pprofMapping) (a : Z) :
  (mappingForAddr ms a = -1 /\ mapped ms a = false) \/
  (exists (j : nat) m, mappingForAddr ms a = Z.of_nat j /\ ms !! j = Some m /\
     contains m a = true /\
     forall (j' : nat) m', (j' < j)%nat -> ms !! j' = Some m' -> contains m' a = false).
Proof. apply (mappingForAddr_from_spec 0). Qed.

Lemma loc_class_app_F Ms Fs fs K l :
  Forall (fun ln => line_function ln < length Fs)%nat (loc_line l) ->
  loc_class Ms (Fs ++ fs) K l = loc_class Ms Fs K l.
Proof.
  intros HF. unfold loc_class.
  destruct (loc_line l) as [|ln [|ln' lns]]; auto.
  inversion HF; subst. rewrite lookup_app_l by done. reflexivity.
Qed.

Lemma grows_refl c : grows c c.
Proof.
  constructor; auto.
  - exists []. by rewrite app_nil_r.
  - exists []. by rewrite app_nil_r.
Qed.

Lemma grows_trans c1 c2 c3 : grows c1 c2 -> grows c2 c3 -> grows c1 c3.
Proof.
  intros [? ? ? ? ? ? ? [l1 H1] [f1 G1] I1] [? ? ? ? ? ? ? [l2 H2] [f2 G2] I2].
  constructor; try congruence; auto.
  - exists (l1 ++ l2). rewrite H2, H1. by rewrite app_assoc.
  - exists (f1 ++ f2). rewrite G2, G1. by rewrite app_assoc.
Qed.

Lemma quiet_refl c : quiet c c.
Proof. split; reflexivity. Qed.

Lemma quiet_trans c1 c2 c3 : quiet c1 c2 -> quiet c2 c3 -> quiet c1 c3.
Proof. intros [? ?] [? ?]. split; congruence. Qed.

Lemma idx_lookup_valid c k i :
  Inv c -> idx_lookup c k = Some i -> (i < length (p_location (result c)))%nat.
Proof.
  intros HI Hk. apply (inv_index _ HI) in Hk as (l & Hl & _).
  by apply lookup_lt_Some in Hl.
Qed.

Lemma addFunction_spec c name r c' :
  Inv c -> addFunction name c = (r, c') ->
  Inv c' /\ grows c c' /\ quiet c c' /\
  p_location (result c') = p_location (result c) /\
  (forall k, idx_lookup c' k = idx_lookup c k) /\
  exists f, p_function (result c') !! r = Some f /\ fn_name f = name.
Proof.
  intros HI Hrun. unfold addFunction in Hrun. st_unfold.
  destruct (functionIndex c !! name) as [f|] eqn:Hn.
  - injection Hrun as <- <-.
    split; [done|]. split; [apply grows_refl|]. split; [apply quiet_refl|].
    split; [done|]. split; [done|].
    by apply (inv_findex _ HI) in Hn.
  - injection Hrun as <- <-. simpl.
    assert (HFs : forall i f, p_function (result c) !! i = Some f -> fn_name f <> name).
    { intros i f Hf Heq. subst name.
      assert (functionIndex c !! fn_name f = Some i) as Hi
        by (apply (inv_findex _ HI); eauto).
      congruence. }
    split; [constructor; simpl|].
    + apply (inv_kernel _ HI).
    + apply (inv_mlen _ HI).
    + apply (inv_kmap _ HI).
    + intros i f Hf. apply lookup_app_Some in Hf as [Hf | [Hlen Hf]].
      * by apply (inv_fid _ HI) in Hf.
      * apply list_lookup_singleton_Some in Hf as [Hi <-]. simpl. lia.
    + intros s i. rewrite lookup_insert. case_decide as Hs.
      * subst s. split.
        -- intros [= <-]. eexists.
           split; [rewrite lookup_app_r by lia; rewrite Nat.sub_diag; reflexivity|reflexivity].
        -- intros (f & Hf & Hname). apply lookup_app_Some in Hf as [Hf | [Hlen Hf]].
           ++ by apply HFs in Hf.
           ++ apply list_lookup_singleton_Some in Hf as [Hi _]. f_equal. lia.
      * rewrite (inv_findex _ HI). split.
        -- intros (f & Hf & Hname). exists f. split; [|done]. by apply lookup_app_l_Some.
        -- intros (f & Hf & Hname). apply lookup_app_Some in Hf as [Hf | [Hlen Hf]].
           ++ eauto.
           ++ apply list_lookup_singleton_Some in Hf as [_ <-]. simpl in Hname. congruence.
    + intros i l Hl. destruct (inv_loc _ HI i l Hl) as (H1 & H2 & H3).
      split; [done|]. split; [done|]. rewrite length_app.
      eapply Forall_impl; [exact H3|]. simpl. intros; lia.
    + intros k i. rewrite (inv_index _ HI k i). split.
      * intros (l & Hl & Hc). exists l. split; [done|].
        rewrite loc_class_app_F; [done|]. apply (inv_loc _ HI i l Hl).
      * intros (l & Hl & Hc). exists l. split; [done|].
        rewrite loc_class_app_F in Hc; [done|]. apply (inv_loc _ HI i l Hl).
  + split; [constructor; simpl; auto|].
    * exists []. by rewrite app_nil_r.
    * by eexists.
    * split; [split; reflexivity|]. split; [done|]. split; [done|].
      eexists. split; [rewrite lookup_app_r by lia; rewrite Nat.sub_diag; reflexivity|reflexivity].
Qed.

(** Appending a fresh location under a key that no index holds yet keeps
    the invariant. *)
Lemma inv_insert_location c c' k l :
  Inv c ->
  idx_lookup c k = None ->
  loc_class (p_mapping (result c)) (p_function (result c)) (kernelMapping c) l = Some k ->
  loc_id l = S (length (p_location (result c))) ->
  (loc_mapping l < length (p_mapping (result c)))%nat ->
  Forall (fun ln => line_function ln < length (p_function (result c)))%nat (loc_line l) ->
  mappings c' = mappings c -> kernelMapping c' = kernelMapping c ->
  disableJITSymbolization c' = disableJITSymbolization c -> pid c' = pid c ->
  p_mapping (result c') = p_mapping (result c) ->
  p_time_nanos (result c') = p_time_nanos (result c) ->
  p_duration_nanos (result c') = p_duration_nanos (result c) ->
  p_function (result c') = p_function (result c) ->
  functionIndex c' = functionIndex c ->
  p_location (result c') = p_location (result c) ++ [l] ->
  frameDropMappingNil c' = frameDropMappingNil c ->
  p_sample (result c') = p_sample (result c) ->
  (forall k', idx_lookup c' k' =
     if decide (k' = k) then Some (length (p_location (result c))) else idx_lookup c k') ->
  Inv c' /\ grows c c' /\ quiet c c' /\
  idx_lookup c' k = Some (length (p_location (result c))).
Proof.
  intros HI Hnone Hcl Hid Hmap Hlines Hms HK Hdis Hpid HM Ht Hd HF Hfi HL Hfd Hs Hidx.
  assert (Hold : forall k' i, idx_lookup c k' = Some i -> k' <> k).
  { intros k' i Hk' ->. congruence. }
  split; [constructor|].
  - rewrite Hms, HK. apply (inv_kernel _ HI).
  - rewrite HM, Hms. apply (inv_mlen _ HI).
  - rewrite HM, HK. apply (inv_kmap _ HI).
  - rewrite HF. apply (inv_fid _ HI).
  - rewrite HF, Hfi. apply (inv_findex _ HI).
  - intros i l0. rewrite HL, HM, HF. intros Hl0.
    apply lookup_app_Some in Hl0 as [Hl0 | [Hlen Hl0]].
    + by apply (inv_loc _ HI).
    + apply list_lookup_singleton_Some in Hl0 as [Hi <-].
      split; [rewrite Hid; lia|]. done.
  - intros k' i. rewrite Hidx, HL, HM, HF, HK. case_decide as Hk.
    + subst k'. split.
      * intros [= <-]. exists l. split; [|done].
        rewrite lookup_app_r by lia. by rewrite Nat.sub_diag.
      * intros (l0 & Hl0 & Hc0). apply lookup_app_Some in Hl0 as [Hl0 | [Hlen Hl0]].
        -- assert (idx_lookup c k = Some i) by (apply (inv_index _ HI); eauto). congruence.
        -- apply list_lookup_singleton_Some in Hl0 as [Hi _]. f_equal. lia.
    + rewrite (inv_index _ HI k' i). split.
      * intros (l0 & Hl0 & Hc0). exists l0. split; [|done]. by apply lookup_app_l_Some.
      * intros (l0 & Hl0 & Hc0). apply lookup_app_Some in Hl0 as [Hl0 | [Hlen Hl0]].
        -- eauto.
        -- apply list_lookup_singleton_Some in Hl0 as [_ <-]. congruence.
  - split; [constructor; auto|].
    + by exists [l].
    + rewrite HF. exists []. by rewrite app_nil_r.
    + intros k' i Hk'. rewrite Hidx. case_decide as Hk; [|done].
      subst. congruence.
    + split; [split; done|]. rewrite Hidx. by rewrite decide_True.
Qed.

(** The fields the invariant reads determine it. *)
Lemma inv_same c c' :
  Inv c -> mappings c' = mappings c -> kernelMapping c' = kernelMapping c ->
  result c' = result c -> functionIndex c' = functionIndex c ->
  (forall k, idx_lookup c' k = idx_lookup c k) -> Inv c'.
Proof.
  intros HI Hms HK Hr Hfi Hidx. constructor; rewrite ?Hms, ?HK, ?Hr, ?Hfi.
  - apply (inv_kernel _ HI).
  - apply (inv_mlen _ HI).
  - apply (inv_kmap _ HI).
  - apply (inv_fid _ HI).
  - apply (inv_findex _ HI).
  - apply (inv_loc _ HI).
  - intros k i. rewrite Hidx. apply (inv_index _ HI).
Qed.

Lemma grows_same c c' :
  mappings c' = mappings c -> kernelMapping c' = kernelMapping c ->
  disableJITSymbolization c' = disableJITSymbolization c -> pid c' = pid c ->
  result c' = result c -> (forall k, idx_lookup c' k = idx_lookup c k) -> grows c c'.
Proof.
  intros Hms HK Hd Hp Hr Hidx. constructor; rewrite ?Hr; auto.
  - exists []. by rewrite app_nil_r.
  - exists []. by rewrite app_nil_r.
  - intros k i. by rewrite Hidx.
Qed.

(** The common tail of the four [add*Location] functions that create a
    location with one line: [addFunction], index, append. *)
Ltac insert_line_location HI Hrun key :=
  let f := fresh "f" in let c1 := fresh "c1" in let Hf := fresh "Hf" in
  let HI1 := fresh "HI1" in let G1 := fresh "G1" in let Q1 := fresh "Q1" in
  let HL1 := fresh "HL1" in let Hidx1 := fresh "Hidx1" in let fn := fresh "fn" in
  let Hfn := fresh "Hfn" in let Hname := fresh "Hname" in
  let HI' := fresh "HI'" in let G' := fresh "G'" in let Q' := fresh "Q'" in
  let Hk' := fresh "Hk'" in let Hr := fresh "Hr" in let Hc' := fresh "Hc'" in
  match type of Hrun with
  | (let (_, _) := addFunction ?name ?c in _) = (?r, ?c') =>
    destruct (addFunction name c) as [f c1] eqn:Hf;
    destruct (addFunction_spec _ _ _ _ HI Hf)
      as (HI1 & G1 & Q1 & HL1 & Hidx1 & fn & Hfn & Hname);
    unfold appendLocation in Hrun; st_unfold; injection Hrun as Hr Hc';
    match type of Hc' with
    | context [ _ ++ [?l] ] =>
        edestruct (inv_insert_location c1 c' (key name) l) as (HI' & G' & Q' & Hk')
    end;
    [ exact HI1 | rewrite Hidx1; assumption | | subst c'; simpl; rewrite HL1; lia
    | | constructor; [simpl; eapply lookup_lt_Some; exact Hfn | constructor] | .. ];
    try (subst c'; reflexivity);
    [ | | intros k'; subst c'; destruct (decide (k' = key name)) as [->|Hne];
           [ simpl; rewrite lookup_insert_eq; rewrite HL1; f_equal; lia
           | destruct k'; simpl; try reflexivity;
             rewrite lookup_insert_ne; [reflexivity | congruence] ]
    | split; [exact HI'|]; split; [exact (grows_trans _ _ _ G1 G')|];
      split; [exact (quiet_trans _ _ _ Q1 Q')|];
      rewrite <- Hr, Hk', HL1; f_equal; lia ]
  end.

Lemma addKernelLocation_spec c ks a r c' :
  Inv c -> addKernelLocation (kernelMapping c) ks a c = (r, c') ->
  Inv c' /\ grows c c' /\ quiet c c' /\
  idx_lookup c' (KKernel (match ks !! a with Some s => s | None => "not found"%string end))
    = Some r.
Proof.
  intros HI Hrun. unfold addKernelLocation in Hrun. st_unfold.
  set (sym := match ks !! a with Some s => s | None => "not found"%string end) in *.
  destruct (kernelLocationIndex c !! sym) as [l|] eqn:Hk.
  - injection Hrun as <- <-. split; [done|]. split; [apply grows_refl|].
    split; [apply quiet_refl|]. exact Hk.
  - insert_line_location HI Hrun KKernel.
    + unfold loc_class. cbn [loc_line loc_mapping line_function].
      rewrite Hfn, (gr_kernel _ _ G1), Nat.eqb_refl. by rewrite Hname.
    + simpl. rewrite (gr_pmapping _ _ G1), (inv_mlen _ HI), (inv_kernel _ HI). lia.
Qed.

Lemma addAddrLocationNoNormalization_spec c m addr r c' :
  Inv c -> (m < length (p_mapping (result c)))%nat ->
  addAddrLocationNoNormalization m addr c = (r, c') ->
  Inv c' /\ grows c c' /\ quiet c c' /\ idx_lookup c' (KAddr addr) = Some r.
Proof.
  intros HI Hm Hrun. unfold addAddrLocationNoNormalization in Hrun. st_unfold.
  destruct (addrLocationIndex c !! addr) as [l|] eqn:Hk.
  - injection Hrun as <- <-. split; [done|]. split; [apply grows_refl|].
    split; [apply quiet_refl|]. exact Hk.
  - unfold appendLocation in Hrun; st_unfold; injection Hrun as Hr Hc'.
    match type of Hc' with
    | context [ _ ++ [?l] ] =>
        edestruct (inv_insert_location c c' (KAddr addr) l) as (HI' & G' & Q' & Hk')
    end;
    [ exact HI | exact Hk | reflexivity | simpl; lia | exact Hm | constructor | .. ];
    try (subst c'; reflexivity).
    + intros k'; subst c'; destruct (decide (k' = KAddr addr)) as [->|Hne].
      * simpl. rewrite lookup_insert_eq. f_equal; lia.
      * destruct k'; simpl; try reflexivity.
        rewrite lookup_insert_ne; [reflexivity | congruence].
    + split; [exact HI'|]. split; [exact G'|]. split; [exact Q'|].
      rewrite <- Hr, Hk'. f_equal; lia.
Qed.

Lemma addAddrLocation_spec E c pm m addr r c' :
  Inv c -> (m < length (p_mapping (result c)))%nat ->
  addAddrLocation E pm m addr c = (r, c') ->
  Inv c' /\ grows c c' /\ quiet c c' /\ exists k, idx_lookup c' k = Some r.
Proof.
  intros HI Hm Hrun. unfold addAddrLocation in Hrun.
  apply addAddrLocationNoNormalization_spec in Hrun as (? & ? & ? & ?); eauto.
Qed.

(** A user mapping index is below the kernel mapping's. *)
Lemma user_mapping_not_kernel c c1 m :
  Inv c -> grows c c1 -> (m < length (mappings c))%nat ->
  Nat.eqb m (kernelMapping c1) = false /\ (m < length (p_mapping (result c1)))%nat.
Proof.
  intros HI G Hm. rewrite (gr_kernel _ _ G), (gr_pmapping _ _ G), (inv_kernel _ HI),
    (inv_mlen _ HI). split; [apply Nat.eqb_neq|]; lia.
Qed.

Lemma addVDSOLocation_spec E c pm m mp addr r c' :
  Inv c -> (m < length (mappings c))%nat -> p_mapping (result c) !! m = Some mp ->
  String.eqb (m_file mp) "[vdso]" = true ->
  addVDSOLocation E pm m addr c = (r, c') ->
  Inv c' /\ grows c c' /\ quiet c c' /\ exists k, idx_lookup c' k = Some r.
Proof.
  intros HI Hm Hmp Hfile Hrun. unfold addVDSOLocation in Hrun. st_unfold.
  set (name := match VdsoResolve E addr pm with Some s => s | None => "unknown"%string end)
    in *.
  destruct (vdsoLocationIndex c !! name) as [l|] eqn:Hk.
  - injection Hrun as <- <-. split; [done|]. split; [apply grows_refl|].
    split; [apply quiet_refl|]. by exists (KVdso name).
  - cut (Inv c' /\ grows c c' /\ quiet c c' /\ idx_lookup c' (KVdso name) = Some r).
    { intros (? & ? & ? & ?). eauto 6. }
    insert_line_location HI Hrun KVdso.
    + destruct (user_mapping_not_kernel _ _ _ HI G1 Hm) as [Hne _].
      unfold loc_class. cbn [loc_line loc_mapping line_function].
      rewrite Hfn, Hne, (gr_pmapping _ _ G1), Hmp, Hfile. by rewrite Hname.
    + simpl. apply (user_mapping_not_kernel _ _ _ HI G1 Hm).
Qed.

(** [perfMap] and [jitdump] only touch the memo fields. *)
Lemma perfMap_spec E c r c' :
  Inv c -> perfMap E c = (r, c') -> Inv c' /\ grows c c' /\ quiet c c'.
Proof.
  intros HI Hrun. unfold perfMap in Hrun. st_unfold.
  destruct (_ || _); injection Hrun as _ <-.
  - split; [done|]. split; [apply grows_refl | apply quiet_refl].
  - split; [eapply inv_same; eauto; by intros []|].
    split; [apply grows_same; auto; by intros []|]. split; reflexivity.
Qed.

Lemma jitdump_spec E path c r c' :
  Inv c -> jitdump E path c = (r, c') -> Inv c' /\ grows c c' /\ quiet c c'.
Proof.
  intros HI Hrun. unfold jitdump in Hrun. st_unfold.
  destruct (cachedJitdump c !! path), (cachedJitdumpErr c !! path);
    injection Hrun as _ <-;
    try (split; [done|]; split; [apply grows_refl | apply quiet_refl]).
  split; [eapply inv_same; eauto; by intros []|].
  split; [apply grows_same; auto; by intros []|]. split; reflexivity.
Qed.

Lemma step_compose c c1 c' (P : Prop) :
  grows c c1 -> quiet c c1 -> Inv c' /\ grows c1 c' /\ quiet c1 c' /\ P ->
  Inv c' /\ grows c c' /\ quiet c c' /\ P.
Proof.
  intros G Q (HI & G' & Q' & HP). split; [done|].
  split; [eapply grows_trans; eauto|]. split; [eapply quiet_trans; eauto|]. done.
Qed.

Lemma addr_fallback c c1 m addr r c' :
  Inv c -> Inv c1 -> grows c c1 -> quiet c c1 -> (m < length (mappings c))%nat ->
  addAddrLocationNoNormalization m addr c1 = (r, c') ->
  Inv c' /\ grows c c' /\ quiet c c' /\ exists k, idx_lookup c' k = Some r.
Proof.
  intros HI HI1 G Q Hm Hrun. apply (step_compose c c1); [done|done|].
  apply addAddrLocationNoNormalization_spec in Hrun as (? & ? & ? & ?); eauto.
  apply (user_mapping_not_kernel _ _ _ HI G Hm).
Qed.

Lemma addPerfMapLocation_spec E c m mp addr r c' :
  Inv c -> (m < length (mappings c))%nat -> p_mapping (result c) !! m = Some mp ->
  String.eqb (m_file mp) "[vdso]" = false -> String.eqb (m_file mp) "jit" = true ->
  addPerfMapLocation E m addr c = (r, c') ->
  Inv c' /\ grows c c' /\ quiet c c' /\ exists k, idx_lookup c' k = Some r.
Proof.
  intros HI Hm Hmp Hv Hj Hrun. unfold addPerfMapLocation in Hrun. st_unfold.
  destruct (disableJITSymbolization c).
  { eapply (addr_fallback c c); eauto using grows_refl, quiet_refl. }
  destruct (perfMap E c) as [pr cp] eqn:Hp.
  destruct (perfMap_spec _ _ _ _ HI Hp) as (HIp & Gp & Qp).
  destruct pr as [[pmap|] err]; simpl in Hrun;
    [|eapply (addr_fallback c cp); eauto].
  destruct (Lookup pmap addr) as [symbol|]; [|eapply (addr_fallback c cp); eauto].
  apply (step_compose c cp); [done|done|].
  destruct (perfmapLocationIndex cp !! symbol) as [l|] eqn:Hk.
  - injection Hrun as <- <-. split; [done|]. split; [apply grows_refl|].
    split; [apply quiet_refl|]. by exists (KPerf symbol).
  - cut (Inv c' /\ grows cp c' /\ quiet cp c' /\ idx_lookup c' (KPerf symbol) = Some r).
    { intros (? & ? & ? & ?). eauto 6. }
    insert_line_location HIp Hrun KPerf.
    + destruct (user_mapping_not_kernel _ _ _ HI (grows_trans _ _ _ Gp G1) Hm) as [Hne _].
      unfold loc_class. cbn [loc_line loc_mapping line_function].
      rewrite Hfn, Hne, (gr_pmapping _ _ G1), (gr_pmapping _ _ Gp), Hmp, Hv, Hj.
      by rewrite Hname.
    + simpl. apply (user_mapping_not_kernel _ _ _ HI (grows_trans _ _ _ Gp G1) Hm).
Qed.

Lemma addJITDumpLocation_spec E c m mp addr path r c' :
  Inv c -> (m < length (mappings c))%nat -> p_mapping (result c) !! m = Some mp ->
  String.eqb (m_file mp) "[vdso]" = false -> String.eqb (m_file mp) "jit" = false ->
  HasSuffix (m_file mp) ".dump" = true ->
  addJITDumpLocation E m addr path c = (r, c') ->
  Inv c' /\ grows c c' /\ quiet c c' /\ exists k, idx_lookup c' k = Some r.
Proof.
  intros HI Hm Hmp Hv Hj Hd Hrun. unfold addJITDumpLocation in Hrun. st_unfold.
  destruct (disableJITSymbolization c).
  { eapply (addr_fallback c c); eauto using grows_refl, quiet_refl. }
  destruct (jitdump E path c) as [pr cp] eqn:Hp.
  destruct (jitdump_spec _ _ _ _ _ HI Hp) as (HIp & Gp & Qp).
  destruct pr as [[jd|] err]; simpl in Hrun;
    [|eapply (addr_fallback c cp); eauto].
  destruct (Lookup jd addr) as [symbol|]; [|eapply (addr_fallback c cp); eauto].
  apply (step_compose c cp); [done|done|].
  destruct (jitdumpLocationIndex cp !! symbol) as [l|] eqn:Hk.
  - injection Hrun as <- <-. split; [done|]. split; [apply grows_refl|].
    split; [apply quiet_refl|]. by exists (KJit symbol).
  - cut (Inv c' /\ grows cp c' /\ quiet cp c' /\ idx_lookup c' (KJit symbol) = Some r).
    { intros (? & ? & ? & ?). eauto 6. }
    insert_line_location HIp Hrun KJit.
    + destruct (user_mapping_not_kernel _ _ _ HI (grows_trans _ _ _ Gp G1) Hm) as [Hne _].
      unfold loc_class. cbn [loc_line loc_mapping line_function].
      rewrite Hfn, Hne, (gr_pmapping _ _ G1), (gr_pmapping _ _ Gp), Hmp, Hv, Hj, Hd.
      by rewrite Hname.
    + simpl. apply (user_mapping_not_kernel _ _ _ HI (grows_trans _ _ _ Gp G1) Hm).
Qed.

Lemma convertKernelStack_spec ksyms ks locs c r c' :
  Inv c -> convertKernelStack ksyms ks locs c = (r, c') ->
  Inv c' /\ grows c c' /\ quiet c c' /\
  exists rs, r = locs ++ rs /\ length rs = length ks /\
    forall j a, ks !! j = Some a ->
      idx_lookup c' (KKernel (match ksyms !! a with Some s => s | None => "not found"%string end))
        = rs !! j.
Proof.
  revert locs c. induction ks as [|a ks IH]; intros locs c HI Hrun; simpl in Hrun; st_unfold.
  - injection Hrun as <- <-. split; [done|]. split; [apply grows_refl|].
    split; [apply quiet_refl|]. exists []. rewrite app_nil_r. split; [done|].
    split; [done|]. intros j a Hj. by rewrite lookup_nil in Hj.
  - destruct (addKernelLocation (kernelMapping c) ksyms a c) as [l c1] eqn:Hk.
    destruct (addKernelLocation_spec _ _ _ _ _ HI Hk) as (HI1 & G1 & Q1 & Hl).
    destruct (IH _ _ HI1 Hrun) as (HI' & G' & Q' & rs & -> & Hlen & Hrs).
    split; [done|]. split; [eapply grows_trans; eauto|].
    split; [eapply quiet_trans; eauto|].
    exists (l :: rs). rewrite <- app_assoc. split; [done|]. split; [simpl; lia|].
    intros [|j] a' Hj.
    + cbn [lookup list_lookup] in Hj |- *. injection Hj as <-. exact (gr_index _ _ G' _ _ Hl).
    + exact (Hrs j a' Hj).
Qed.

Lemma mapped_lookup (ms : list pprofMapping) (j : nat) m a :
  ms !! j = Some m -> contains m a = true -> mapped ms a = true.
Proof.
  intros Hj Hc. unfold mapped. apply existsb_exists. exists m. split; [|done].
  apply list_elem_of_In. by eapply list_elem_of_lookup_2.
Qed.

(** The index [mappingForAddr] picks for a converter satisfying the
    invariant is a process-mapping index. *)
Lemma mappingForAddr_user c a (j : nat) m :
  Inv c -> p_mapping (result c) !! j = Some m -> contains m a = true ->
  (j < length (mappings c))%nat.
Proof.
  intros HI Hj Hc.
  assert (Hlt : (j < length (p_mapping (result c)))%nat) by (eapply lookup_lt_Some; eauto).
  rewrite (inv_mlen _ HI) in Hlt.
  destruct (decide (j = length (mappings c))) as [->|]; [|lia].
  rewrite <- (inv_kernel _ HI) in Hj. apply (inv_kmap _ HI) in Hj as [Hs Hl].
  unfold contains in Hc. rewrite Hs, Hl in Hc. apply andb_prop in Hc as [H1 H2].
  apply Z.leb_le in H1. apply Z.ltb_lt in H2. lia.
Qed.

Lemma set_frameDrop_inv c n :
  Inv c -> Inv (set_frameDropMappingNil c n) /\ grows c (set_frameDropMappingNil c n).
Proof.
  intros HI. split.
  - apply (inv_same c); auto.
  - apply grows_same; auto.
Qed.

Lemma convertUserStack_spec E us locs c r c' :
  Inv c -> convertUserStack E us locs c = (r, c') ->
  Inv c' /\ grows c c' /\ p_sample (result c') = p_sample (result c) /\
  exists rs, r = Some (locs ++ rs) /\
    length rs = length (List.filter (mapped (p_mapping (result c))) us) /\
    frameDropMappingNil c' = (frameDropMappingNil c +
      length (List.filter (fun a => negb (mapped (p_mapping (result c)) a)) us))%nat.
Proof.
  revert locs c. induction us as [|a us IH]; intros locs c HI Hrun; simpl in Hrun; st_unfold.
  - injection Hrun as <- <-. split; [done|]. split; [apply grows_refl|]. split; [done|].
    exists []. rewrite app_nil_r. simpl. split; [done|]. split; [done|]. lia.
  - destruct (mappingForAddr_spec (p_mapping (result c)) a)
      as [[Hidx Hmapped] | (j & m & Hidx & Hj & Hc & Hfirst)]; rewrite Hidx in Hrun.
    + simpl in Hrun.
      destruct (set_frameDrop_inv c (S (frameDropMappingNil c)) HI) as [HI1 G1].
      destruct (IH _ _ HI1 Hrun) as (HI' & G' & Hs' & rs & -> & Hlen & Hfd).
      split; [done|]. split; [eapply grows_trans; eauto|]. split; [done|].
      exists rs. split; [done|]. simpl. rewrite Hmapped. simpl.
      rewrite Hlen, Hfd. simpl. split; [done|]. lia.
    + assert (Hjl := mappingForAddr_user c a j m HI Hj Hc).
      assert (Hne : (Z.of_nat j =? -1) = false) by (apply Z.eqb_neq; lia).
      rewrite Hne, Nat2Z.id, Hj in Hrun.
      destruct (lookup_lt_is_Some_2 (mappings c) j Hjl) as [pm Hpm].
      rewrite Hpm in Hrun.
      destruct (if String.eqb (m_file m) "[vdso]" then addVDSOLocation E pm j a
                else if String.eqb (m_file m) "jit" then addPerfMapLocation E j a
                else if HasSuffix (m_file m) ".dump" then addJITDumpLocation E j a (m_file m)
                else addAddrLocation E pm j a) as [l c1] eqn:Hl.
      assert (Hstep : Inv c1 /\ grows c c1 /\ quiet c c1).
      { destruct (String.eqb (m_file m) "[vdso]") eqn:Hv.
        { edestruct addVDSOLocation_spec as (? & ? & ? & _); eauto. }
        destruct (String.eqb (m_file m) "jit") eqn:Hjit.
        { edestruct addPerfMapLocation_spec as (? & ? & ? & _); eauto. }
        destruct (HasSuffix (m_file m) ".dump") eqn:Hd.
        { edestruct addJITDumpLocation_spec as (? & ? & ? & _); eauto. }
        edestruct addAddrLocation_spec as (? & ? & ? & _); eauto.
        apply (user_mapping_not_kernel _ _ _ HI (grows_refl c) Hjl). }
      destruct Hstep as (HI1 & G1 & [Qf Qs]).
      destruct (IH _ _ HI1 Hrun) as (HI' & G' & Hs' & rs & -> & Hlen & Hfd).
      split; [done|]. split; [eapply grows_trans; eauto|]. split; [congruence|].
      exists (l :: rs). rewrite <- app_assoc. split; [done|].
      rewrite (gr_pmapping _ _ G1) in Hlen, Hfd.
      simpl. rewrite (mapped_lookup _ _ _ _ Hj Hc). simpl.
      split; [by rewrite Hlen|]. rewrite Hfd, Qf. done.
Qed.

Lemma set_sample_inv c ss :
  Inv c -> Inv (set_result c (prof_with_sample (result c) ss)) /\
           grows c (set_result c (prof_with_sample (result c) ss)).
Proof.
  intros HI. destruct HI. split; [constructor; assumption|].
  constructor; try reflexivity; [exists []..|]; rewrite ?app_nil_r; auto.
Qed.

(** Per raw sample: its value, the number of its locations and the
    locations of its kernel frames. *)
Definition sample_ok (E : Env) (rawData : list RawSample) (Ms : list pprofMapping)
    (c' : Converter) (rs : RawSample) (s : pprofSample) : Prop :=
  s_value s = [int64_of_uint64 (rs_value rs)] /\
  length (s_location s) =
    (length (rs_kernel_stack rs) + length (List.filter (mapped Ms) (rs_user_stack rs)))%nat /\
  forall i a, rs_kernel_stack rs !! i = Some a ->
    idx_lookup c' (KKernel (kernelSymbolFor E rawData a)) = s_location s !! i.

Lemma convertSamples_spec E rawData0 rawData c r c' :
  Inv c ->
  convertSamples E (match KsymResolve E (kernelAddressesOf rawData0) with
                    | Some m => m | None => ∅ end) rawData c = (r, c') ->
  Inv c' /\ grows c c' /\ r = Some tt /\
  exists ss, p_sample (result c') = p_sample (result c) ++ ss /\
    length ss = length rawData /\
    (forall j rs, rawData !! j = Some rs -> exists s, ss !! j = Some s /\
       sample_ok E rawData0 (p_mapping (result c)) c' rs s) /\
    frameDropMappingNil c' =
      (frameDropMappingNil c + unmappedCount (p_mapping (result c)) rawData)%nat.
Proof.
  revert c. induction rawData as [|rs rawData IH]; intros c HI Hrun; simpl in Hrun; st_unfold.
  - injection Hrun as <- <-. split; [done|]. split; [apply grows_refl|]. split; [done|].
    exists []. rewrite app_nil_r. split; [done|]. split; [done|]. split.
    + intros j rs Hj. by rewrite lookup_nil in Hj.
    + simpl. lia.
  - destruct (convertKernelStack _ (rs_kernel_stack rs) [] c) as [ks c1] eqn:Hk.
    destruct (convertKernelStack_spec _ _ _ _ _ _ HI Hk)
      as (HI1 & G1 & [Qf1 Qs1] & kls & Hks & Hklen & Hkl).
    simpl in Hks. subst ks.
    destruct (convertUserStack E (rs_user_stack rs) kls c1) as [us c2] eqn:Hu.
    destruct (convertUserStack_spec _ _ _ _ _ _ HI1 Hu)
      as (HI2 & G2 & Qs2 & uls & -> & Hulen & Hfd2).
    destruct (set_sample_inv c2 (p_sample (result c2) ++
        [mkSample [int64_of_uint64 (rs_value rs)] (kls ++ uls)]) HI2) as [HI3 G3].
    destruct (IH _ HI3 Hrun) as (HI' & G' & -> & ss & Hss & Hlen & Hall & Hfd).
    split; [done|]. split; [eauto using grows_trans|]. split; [done|].
    exists (mkSample [int64_of_uint64 (rs_value rs)] (kls ++ uls) :: ss).
    assert (HMs : p_mapping (result c2) = p_mapping (result c))
      by (rewrite (gr_pmapping _ _ G2), (gr_pmapping _ _ G1); done).
    cbn [set_result result prof_with_sample p_mapping p_sample] in Hall, Hfd, Hss.
    rewrite HMs in Hall, Hfd. rewrite (gr_pmapping _ _ G1) in Hulen, Hfd2.
    split; [rewrite Hss; cbn; rewrite Qs2, Qs1, <- app_assoc; done|].
    split; [simpl; lia|]. split.
    + intros [|j] rs' Hj; cbn [lookup list_lookup] in Hj |- *.
      * injection Hj as <-. eexists; split; [reflexivity|].
        split; [done|]. split; [cbn; rewrite length_app; lia|].
        intros i a Hi. cbn [s_location].
        assert (Hi' : (i < length kls)%nat) by (rewrite Hklen; eapply lookup_lt_Some; eauto).
        rewrite lookup_app_l by done. unfold kernelSymbolFor.
        destruct (lookup_lt_is_Some_2 kls i Hi') as [x Hx].
        rewrite Hx. rewrite <- (Hkl i a Hi) in Hx.
        apply (gr_index _ _ G'), (gr_index _ _ G3), (gr_index _ _ G2), Hx.
      * exact (Hall j rs' Hj).
    + rewrite Hfd. cbn [set_result frameDropMappingNil].
      unfold unmappedCount. cbn [sum_list_with]. fold (unmappedCount (p_mapping (result c)) rawData).
      rewrite Hfd2, Qf1. lia.
Qed.

Lemma convertToPprof_from_length i ms : length (convertToPprof_from i ms) = length ms.
Proof. revert i. induction ms; intros i; simpl; auto. Qed.

Lemma convertToPprof_from_lookup i ms j pm :
  ms !! j = Some pm ->
  convertToPprof_from i ms !! j =
    Some (mkMapping (S (i + j)) (pm_start pm) (pm_limit pm) (pm_offset pm) (pm_file pm)
                    (pm_build_id pm)).
Proof.
  revert i j. induction ms as [|pm' ms IH]; intros i j Hj; [by rewrite lookup_nil in Hj|].
  destruct j as [|j]; simpl in Hj |- *.
  - injection Hj as <-. by rewrite Nat.add_0_r.
  - rewrite (IH (S i) j Hj). by rewrite Nat.add_succ_r.
Qed.

Lemma NewConverter_inv d pid0 ms t now per fd : Inv (NewConverter d pid0 ms t now per fd).
Proof.
  unfold NewConverter, ConvertToPprof. constructor; cbn [kernelMapping mappings result
    p_mapping p_function p_location functionIndex].
  - apply convertToPprof_from_length.
  - rewrite length_app, convertToPprof_from_length. simpl. lia.
  - intros m Hm. rewrite lookup_app_r, Nat.sub_diag in Hm by lia.
    simpl in Hm. injection Hm as <-. done.
  - intros i f Hf. by rewrite lookup_nil in Hf.
  - intros s i. rewrite lookup_empty. split; [done|]. intros (f & Hf & _).
    by rewrite lookup_nil in Hf.
  - intros i l Hl. by rewrite lookup_nil in Hl.
  - intros k i. split.
    + destruct k; simpl; by rewrite lookup_empty.
    + intros (l & Hl & _). by rewrite lookup_nil in Hl.
Qed.

Lemma Convert_spec E rawData c r c' :
  Inv c -> Convert E rawData c = (r, c') ->
  Inv c' /\ grows c c' /\ r = Some (result c', None) /\
  exists ss, p_sample (result c') = p_sample (result c) ++ ss /\
    length ss = length rawData /\
    (forall j rs, rawData !! j = Some rs -> exists s, ss !! j = Some s /\
       sample_ok E rawData (p_mapping (result c)) c' rs s) /\
    frameDropMappingNil c' =
      (frameDropMappingNil c + unmappedCount (p_mapping (result c)) rawData)%nat.
Proof.
  intros HI Hrun. unfold Convert in Hrun. st_unfold.
  destruct (convertSamples E _ rawData c) as [u c1] eqn:Hs.
  destruct (convertSamples_spec E rawData rawData c u c1 HI Hs)
    as (HI1 & G1 & -> & ss & H1 & H2 & H3 & H4).
  injection Hrun as <- <-. split; [done|]. split; [done|]. split; [done|]. eauto.
Qed.

Lemma loc_class_kernel Ms Fs K l s :
  loc_class Ms Fs K l = Some (KKernel s) ->
  exists ln f, loc_line l = [ln] /\ Fs !! line_function ln = Some f /\
    fn_name f = s /\ loc_mapping l = K.
Proof.
  unfold loc_class. destruct (loc_line l) as [|ln [|? ?]]; try discriminate.
  destruct (Fs !! line_function ln) as [f|] eqn:Hf; [|discriminate].
  destruct (Nat.eqb (loc_mapping l) K) eqn:HK.
  - intros [= <-]. exists ln, f. apply Nat.eqb_eq in HK. auto.
  - destruct (Ms !! loc_mapping l) as [m|]; [|discriminate].
    repeat match goal with |- context [if ?b then _ else _] => destruct b end;
      discriminate.
Qed.

Lemma idx_unique c k i i' l l' :
  Inv c ->
  p_location (result c) !! i = Some l -> p_location (result c) !! i' = Some l' ->
  loc_class (p_mapping (result c)) (p_function (result c)) (kernelMapping c) l = Some k ->
  loc_class (p_mapping (result c)) (p_function (result c)) (kernelMapping c) l' = Some k ->
  i = i'.
Proof.
  intros HI Hl Hl' Hk Hk'.
  assert (H1 : idx_lookup c k = Some i) by (apply (inv_index _ HI); eauto).
  assert (H2 : idx_lookup c k = Some i') by (apply (inv_index _ HI); eauto).
  congruence.
Qed.

Lemma NewConverter_kernel d pid0 ms t now per fd :
  kernelMapping (NewConverter d pid0 ms t now per fd) = length ms.
Proof. apply convertToPprof_from_length. Qed.

Lemma NewConverter_mapping d pid0 ms t now per fd :
  p_mapping (result (NewConverter d pid0 ms t now per fd)) =
    ConvertToPprof ms ++ [mkMapping (length ms + 1) 0 0 0 "[kernel.kallsyms]" ""].
Proof. unfold NewConverter, ConvertToPprof. cbn. by rewrite convertToPprof_from_length. Qed.

(** Running [Convert] on a fresh converter. *)
Lemma Convert_fresh E d pid0 ms t now per fd rawData r c' :
  Convert E rawData (NewConverter d pid0 ms t now per fd) = (r, c') ->
  Inv c' /\ r = Some (result c', None) /\ kernelMapping c' = length ms /\
  p_mapping (result c') =
    ConvertToPprof ms ++ [mkMapping (length ms + 1) 0 0 0 "[kernel.kallsyms]" ""] /\
  p_time_nanos (result c') = t /\ p_duration_nanos (result c') = now - t /\
  length (p_sample (result c')) = length rawData /\
  (forall j rs, rawData !! j = Some rs -> exists s, p_sample (result c') !! j = Some s /\
     sample_ok E rawData (p_mapping (result c')) c' rs s) /\
  frameDropMappingNil c' = (fd + unmappedCount (p_mapping (result c')) rawData)%nat.
Proof.
  intros Hrun.
  destruct (Convert_spec E rawData _ r c' (NewConverter_inv d pid0 ms t now per fd) Hrun)
    as (HI & G & -> & ss & Hss & Hlen & Hall & Hfd).
  cbn [NewConverter result p_sample app] in Hss.
  rewrite (gr_pmapping _ _ G).
  split; [done|]. split; [done|].
  split; [rewrite (gr_kernel _ _ G); apply NewConverter_kernel|].
  split; [apply NewConverter_mapping|].
  split; [by rewrite (gr_time _ _ G)|]. split; [by rewrite (gr_duration _ _ G)|].
  rewrite Hss. split; [done|]. split; [done|]. exact Hfd.
Qed.

Lemma NewConverter_mapping_ids ms i m :
  (ConvertToPprof ms ++ [mkMapping (length ms + 1) 0 0 0 "[kernel.kallsyms]" ""]) !! i = Some m ->
  m_id m = S i.
Proof.
  intros Hi. apply lookup_app_Some in Hi as [Hi | [Hge Hi]].
  - unfold ConvertToPprof in Hi.
    destruct (lookup_lt_is_Some_2 ms i) as [pm Hpm].
    { apply lookup_lt_Some in Hi. by rewrite convertToPprof_from_length in Hi. }
    rewrite (convertToPprof_from_lookup 0 ms i pm Hpm) in Hi. by injection Hi as <-.
  - unfold ConvertToPprof in *. rewrite convertToPprof_from_length in Hge, Hi.
    apply list_lookup_singleton_Some in Hi as [Hi <-]. simpl. lia.
Qed.

Lemma contains_iff m a : contains m a = true <-> m_start m <= a < m_limit m.
Proof. unfold contains. rewrite andb_true_iff, Z.leb_le, Z.ltb_lt. done. Qed.

Lemma not_mapped Ms a m : mapped Ms a = false -> In m Ms -> ~ (m_start m <= a < m_limit m).
Proof.
  unfold mapped. intros Hm Hin Hc. apply contains_iff in Hc.
  assert (existsb (fun m => contains m a) Ms = true) by (apply existsb_exists; eauto).
  congruence.
Qed.

Lemma int64_of_uint64_range v :
  0 <= v < 2 ^ 64 -> int64_of_uint64 v = if v <? 2 ^ 63 then v else v - 2 ^ 64.
Proof. intros Hv. unfold int64_of_uint64. by rewrite Z.mod_small by lia. Qed.

(* --------------------------------------------------------------------- *)
(** *** The properties of [Convert] *)

(** C1 (amended). Within one conversion, each dedup key of each of the
    converter's indexes (kernel symbol name, VDSO function name, perf-map
    symbol name, jitdump symbol name, address) is carried by at most one
    Location of the profile: two Locations of the same class and key are
    the same Location. The perf-map and jitdump indexes are separate, so a
    JIT symbol name gets one Location per index. In particular, when two
    raw samples have the same kernel address [a] in their kernel stacks,
    both samples reference the same kernel Location there (one line, the
    kernel mapping, the symbol of [a]), and it is the only kernel Location
    for that symbol. *)
Theorem C1_dedup_per_index E d pid0 ms t now per fd rawData r c' :
  Convert E rawData (NewConverter d pid0 ms t now per fd) = (r, c') ->
  exists prof, r = Some (prof, None) /\
  (forall k i i' l l', p_location prof !! i = Some l -> p_location prof !! i' = Some l' ->
     loc_class (p_mapping prof) (p_function prof) (length ms) l = Some k ->
     loc_class (p_mapping prof) (p_function prof) (length ms) l' = Some k -> i = i') /\
  (forall j1 j2 rs1 rs2 s1 s2 i1 i2 a,
     rawData !! j1 = Some rs1 -> rawData !! j2 = Some rs2 ->
     p_sample prof !! j1 = Some s1 -> p_sample prof !! j2 = Some s2 ->
     rs_kernel_stack rs1 !! i1 = Some a -> rs_kernel_stack rs2 !! i2 = Some a ->
     exists p l, s_location s1 !! i1 = Some p /\ s_location s2 !! i2 = Some p /\
       p_location prof !! p = Some l /\ loc_mapping l = length ms /\
       loc_class (p_mapping prof) (p_function prof) (length ms) l
         = Some (KKernel (kernelSymbolFor E rawData a)) /\
       forall p' l', p_location prof !! p' = Some l' ->
         loc_class (p_mapping prof) (p_function prof) (length ms) l'
           = Some (KKernel (kernelSymbolFor E rawData a)) -> p' = p).
Proof.
  intros Hrun.
  destruct (Convert_fresh _ _ _ _ _ _ _ _ _ _ _ Hrun)
    as (HI & -> & HK & _ & _ & _ & _ & Hall & _).
  exists (result c'). split; [done|]. rewrite <- HK. split.
  - intros k i i' l l'. apply (idx_unique c' k i i' l l' HI).
  - intros j1 j2 rs1 rs2 s1 s2 i1 i2 a Hj1 Hj2 Hs1 Hs2 Ha1 Ha2.
    destruct (Hall j1 rs1 Hj1) as (s1' & Hs1' & _ & Hlen1 & Hk1).
    destruct (Hall j2 rs2 Hj2) as (s2' & Hs2' & _ & _ & Hk2).
    rewrite Hs1 in Hs1'. injection Hs1' as <-. rewrite Hs2 in Hs2'. injection Hs2' as <-.
    specialize (Hk1 i1 a Ha1). specialize (Hk2 i2 a Ha2).
    destruct (lookup_lt_is_Some_2 (s_location s1) i1) as [p Hp].
    { rewrite Hlen1. apply lookup_lt_Some in Ha1. lia. }
    rewrite Hp in Hk1. rewrite Hk1 in Hk2.
    destruct (proj1 (inv_index _ HI _ _) Hk1) as (l & Hl & Hcl).
    destruct (loc_class_kernel _ _ _ _ _ Hcl) as (ln & f & _ & _ & _ & Hm).
    exists p, l. split; [done|]. split; [done|]. split; [done|]. split; [done|].
    split; [done|]. intros p' l' Hl' Hcl'. exact (idx_unique c' _ p' p l' l HI Hl' Hl Hcl' Hcl).
Qed.

Lemma C1_witness :
  plainRun = (plainRun.1, plainRun.2) /\
  exists p l, plainSamples !! 0%nat = Some (mkRawSample 3 [4096] [7; 9]) /\
    (plainRun.1 = Some (result plainRun.2, None)) /\
    p_location (result plainRun.2) !! p = Some l /\ loc_mapping l = length plainMappings.
Proof.
  assert (H : plainRun = (plainRun.1, plainRun.2)) by (vm_compute; reflexivity).
  split; [exact H|].
  destruct (C1_dedup_per_index plainEnv false 1 plainMappings 10 15 1 0 plainSamples
              plainRun.1 plainRun.2 H) as (prof & Hr & _ & Hk).
  assert (Hprof : prof = result plainRun.2) by (vm_compute in Hr; injection Hr as <-; reflexivity).
  subst prof.
  destruct (Hk 0%nat 1%nat (mkRawSample 3 [4096] [7; 9]) (mkRawSample (2 ^ 63 + 5) [8192] [7])
              (mkSample [3] [0%nat; 0%nat; 1%nat]) (mkSample [-9223372036854775803] [0%nat])
              0%nat 0%nat 7)
    as (p & l & _ & _ & Hl & Hm & _); try (vm_compute; reflexivity).
  exists p, l. split; [reflexivity|]. split; [exact Hr|]. auto.
Defined.

(** The spec's C1 for the JIT key: a perf-map region and a jitdump region
    that both name their addresses ["foo"] give two Locations with the
    same JIT symbol name ["foo"] in one conversion. *)
Lemma C1_counterexample :
  exists prof l1 l2, jitRun.1 = Some (prof, None) /\
    p_location prof !! 0%nat = Some l1 /\ p_location prof !! 1%nat = Some l2 /\
    jitSymbolKey (p_mapping prof) (p_function prof) l1 = Some "foo"%string /\
    jitSymbolKey (p_mapping prof) (p_function prof) l2 = Some "foo"%string.
Proof. vm_compute. do 3 eexists. repeat split; reflexivity. Qed.

(** Applying a [Convert]-level claim to [plainRun]: its equation. *)
Lemma plainRun_eq : plainRun = (plainRun.1, plainRun.2).
Proof. vm_compute. reflexivity. Qed.

(** Modelled from the spec: the ids of the process mappings come from
    [ConvertToPprof], which is not part of these sources. C2: for a profile
    produced by [Convert] on a fresh converter, the i-th Mapping, Location
    and Function (from 0) has id i+1, so each table's ids are unique,
    consecutive and start at 1; every Location's mapping is an entry of
    the Mapping table and every Function referenced by a Location's line is
    an entry of the Function table. *)
Theorem C2_dense_ids E d pid0 ms t now per fd rawData r c' :
  Convert E rawData (NewConverter d pid0 ms t now per fd) = (r, c') ->
  exists prof, r = Some (prof, None) /\
  (forall i m, p_mapping prof !! i = Some m -> m_id m = S i) /\
  (forall i f, p_function prof !! i = Some f -> fn_id f = S i) /\
  (forall i l, p_location prof !! i = Some l ->
     loc_id l = S i /\ (loc_mapping l < length (p_mapping prof))%nat /\
     Forall (fun ln => line_function ln < length (p_function prof))%nat (loc_line l)).
Proof.
  intros Hrun.
  destruct (Convert_fresh _ _ _ _ _ _ _ _ _ _ _ Hrun) as (HI & -> & _ & HM & _).
  exists (result c'). split; [done|]. split; [|split].
  - rewrite HM. apply NewConverter_mapping_ids.
  - apply (inv_fid _ HI).
  - apply (inv_loc _ HI).
Qed.

Lemma C2_witness :
  plainRun = (plainRun.1, plainRun.2) /\
  exists prof, plainRun.1 = Some (prof, None) /\
    forall i m, p_mapping prof !! i = Some m -> m_id m = S i.
Proof.
  split; [exact plainRun_eq|].
  destruct (C2_dense_ids plainEnv false 1 plainMappings 10 15 1 0 plainSamples
              plainRun.1 plainRun.2 plainRun_eq) as (prof & Hr & Hm & _).
  exists prof. auto.
Defined.

(** Modelled from the spec: [ConvertToPprof] (package process) is not
    part of these sources. C3: the Mapping table of a fresh converter, and of
    every profile [Convert] produces from it (whatever the samples, with or
    without kernel frames), is the converted process mappings in order
    followed by one kernel mapping with file ["[kernel.kallsyms]"] and id
    [len(process_mappings) + 1]. *)
Theorem C3_kernel_mapping_last E d pid0 ms t now per fd rawData r c' :
  Convert E rawData (NewConverter d pid0 ms t now per fd) = (r, c') ->
  p_mapping (result (NewConverter d pid0 ms t now per fd)) =
    ConvertToPprof ms ++ [mkMapping (length ms + 1) 0 0 0 "[kernel.kallsyms]" ""] /\
  exists prof, r = Some (prof, None) /\
  p_mapping prof =
    ConvertToPprof ms ++ [mkMapping (length ms + 1) 0 0 0 "[kernel.kallsyms]" ""] /\
  (forall j pm, ms !! j = Some pm ->
     p_mapping prof !! j = Some (mkMapping (S j) (pm_start pm) (pm_limit pm) (pm_offset pm)
                                           (pm_file pm) (pm_build_id pm))) /\
  p_mapping prof !! length ms = Some (mkMapping (length ms + 1) 0 0 0 "[kernel.kallsyms]" "").
Proof.
  intros Hrun.
  destruct (Convert_fresh _ _ _ _ _ _ _ _ _ _ _ Hrun) as (_ & -> & _ & HM & _).
  split; [apply NewConverter_mapping|].
  exists (result c'). split; [done|]. split; [done|]. rewrite HM. split.
  - intros j pm Hj. rewrite lookup_app_l.
    + exact (convertToPprof_from_lookup 0 ms j pm Hj).
    + unfold ConvertToPprof. rewrite convertToPprof_from_length. eapply lookup_lt_Some; eauto.
  - rewrite lookup_app_r; unfold ConvertToPprof; rewrite convertToPprof_from_length; [|lia].
    by rewrite Nat.sub_diag.
Qed.

(** A process with no samples at all. *)
Lemma C3_witness :
  Convert plainEnv [] plainConverter =
    ((Convert plainEnv [] plainConverter).1, (Convert plainEnv [] plainConverter).2) /\
  exists prof, (Convert plainEnv [] plainConverter).1 = Some (prof, None) /\
    p_mapping prof !! 1%nat = Some (mkMapping 2 0 0 0 "[kernel.kallsyms]" "").
Proof.
  assert (H : Convert plainEnv [] plainConverter =
    ((Convert plainEnv [] plainConverter).1, (Convert plainEnv [] plainConverter).2))
    by (vm_compute; reflexivity).
  split; [exact H|].
  destruct (C3_kernel_mapping_last plainEnv false 1 plainMappings 10 15 1 0 []
              _ _ H) as (_ & prof & Hr & _ & _ & Hk).
  exists prof. split; [exact Hr|]. exact Hk.
Defined.

(** C4. During [Convert], [mappingForAddr] picks for a user-stack address
    the first profile mapping whose [[Start, Limit)] contains it (so an
    address equal to a mapping's start can resolve to it and one equal to
    its limit cannot), or [-1] when none contains it. Each sample gets one
    Location per kernel frame and per user frame that some mapping
    contains: every uncontained user frame is skipped, and the
    [mapping_nil] frame-drop counter grows by the number of skipped
    frames. *)
Theorem C4_user_frame_routing E d pid0 ms t now per fd rawData r c' :
  Convert E rawData (NewConverter d pid0 ms t now per fd) = (r, c') ->
  exists prof, r = Some (prof, None) /\
  (forall a,
     (mappingForAddr (p_mapping prof) a = -1 /\
      forall m, In m (p_mapping prof) -> ~ (m_start m <= a < m_limit m)) \/
     (exists (j : nat) m, mappingForAddr (p_mapping prof) a = Z.of_nat j /\
      p_mapping prof !! j = Some m /\ m_start m <= a < m_limit m /\
      forall (j' : nat) m', (j' < j)%nat -> p_mapping prof !! j' = Some m' ->
        ~ (m_start m' <= a < m_limit m'))) /\
  (forall j rs s, rawData !! j = Some rs -> p_sample prof !! j = Some s ->
     length (s_location s) =
       (length (rs_kernel_stack rs) +
        length (List.filter (mapped (p_mapping prof)) (rs_user_stack rs)))%nat) /\
  frameDropMappingNil c' = (fd + unmappedCount (p_mapping prof) rawData)%nat.
Proof.
  intros Hrun.
  destruct (Convert_fresh _ _ _ _ _ _ _ _ _ _ _ Hrun) as (_ & -> & _ & _ & _ & _ & _ & Hall & Hfd).
  exists (result c'). split; [done|]. split; [|split; [|done]].
  - intros a. destruct (mappingForAddr_spec (p_mapping (result c')) a)
      as [[H1 H2] | (j & m & H1 & H2 & H3 & H4)].
    + left. split; [done|]. intros m Hin. exact (not_mapped _ _ _ H2 Hin).
    + right. exists j, m. split; [done|]. split; [done|].
      split; [by apply contains_iff|]. intros j' m' Hj' Hm' Hc.
      apply contains_iff in Hc. rewrite (H4 j' m' Hj' Hm') in Hc. discriminate.
  - intros j rs s Hj Hs. destruct (Hall j rs Hj) as (s' & Hs' & _ & Hlen & _).
    rewrite Hs in Hs'. by injection Hs' as <-.
Qed.

Lemma C4_witness :
  plainRun = (plainRun.1, plainRun.2) /\
  exists prof, plainRun.1 = Some (prof, None) /\ frameDropMappingNil plainRun.2 = 1%nat /\
    mappingForAddr (p_mapping prof) 4096 = 0 /\ mappingForAddr (p_mapping prof) 8192 = -1.
Proof.
  split; [exact plainRun_eq|].
  destruct (C4_user_frame_routing plainEnv false 1 plainMappings 10 15 1 0 plainSamples
              plainRun.1 plainRun.2 plainRun_eq) as (prof & Hr & _ & _ & Hfd).
  exists prof. split; [exact Hr|].
  assert (Hp : prof = result plainRun.2) by (vm_compute in Hr; injection Hr as <-; reflexivity).
  subst prof. rewrite Hfd. vm_compute. auto.
Defined.

(** C5. [Convert] never fails: on a fresh converter it always returns the
    profile with a nil error and one Sample per raw sample. When the
    kernel-symbol resolver fails (its map is replaced by the empty one),
    every kernel frame of every sample references a kernel Location whose
    one line's Function is named ["not found"]. *)
Theorem C5_no_failure E d pid0 ms t now per fd rawData r c' :
  Convert E rawData (NewConverter d pid0 ms t now per fd) = (r, c') ->
  exists prof, r = Some (prof, None) /\ length (p_sample prof) = length rawData /\
  (KsymResolve E (kernelAddressesOf rawData) = None ->
   forall j rs s i a, rawData !! j = Some rs -> p_sample prof !! j = Some s ->
     rs_kernel_stack rs !! i = Some a ->
     exists p l ln f, s_location s !! i = Some p /\ p_location prof !! p = Some l /\
       loc_mapping l = length ms /\ loc_line l = [ln] /\
       p_function prof !! line_function ln = Some f /\ fn_name f = "not found"%string).
Proof.
  intros Hrun.
  destruct (Convert_fresh _ _ _ _ _ _ _ _ _ _ _ Hrun)
    as (HI & -> & HK & _ & _ & _ & Hlen & Hall & _).
  exists (result c'). split; [done|]. split; [done|].
  intros Hks j rs s i a Hj Hs Ha.
  destruct (Hall j rs Hj) as (s' & Hs' & _ & Hlen' & Hk).
  rewrite Hs in Hs'. injection Hs' as <-.
  specialize (Hk i a Ha). unfold kernelSymbolFor in Hk. rewrite Hks, lookup_empty in Hk.
  destruct (lookup_lt_is_Some_2 (s_location s) i) as [p Hp].
  { rewrite Hlen'. apply lookup_lt_Some in Ha. lia. }
  rewrite Hp in Hk.
  destruct (proj1 (inv_index _ HI _ _) Hk) as (l & Hl & Hcl).
  destruct (loc_class_kernel _ _ _ _ _ Hcl) as (ln & f & Hln & Hf & Hn & Hm).
  exists p, l, ln, f. rewrite <- HK. repeat split; auto.
Qed.

Lemma C5_witness :
  plainRun = (plainRun.1, plainRun.2) /\
  KsymResolve plainEnv (kernelAddressesOf plainSamples) = None /\
  exists prof p l ln f, plainRun.1 = Some (prof, None) /\
    p_location prof !! p = Some l /\ loc_line l = [ln] /\
    p_function prof !! line_function ln = Some f /\ fn_name f = "not found"%string.
Proof.
  split; [exact plainRun_eq|]. split; [reflexivity|].
  destruct (C5_no_failure plainEnv false 1 plainMappings 10 15 1 0 plainSamples
              plainRun.1 plainRun.2 plainRun_eq) as (prof & Hr & _ & Hnf).
  assert (Hp : prof = result plainRun.2) by (vm_compute in Hr; injection Hr as <-; reflexivity).
  subst prof.
  destruct (Hnf eq_refl 0%nat (mkRawSample 3 [4096] [7; 9]) (mkSample [3] [0%nat; 0%nat; 1%nat])
              0%nat 7) as (p & l & ln & f & _ & Hl & _ & Hln & Hf & Hn);
    try (vm_compute; reflexivity).
  exists (result plainRun.2), p, l, ln, f. auto.
Defined.

(** The spec's C6: [duration_nanos] is left unset (zero) at construction.
    A converter built at clock reading 15 for capture time 10 already has
    [duration_nanos = 5], and [Convert] returns it unchanged. *)
Lemma C6_counterexample :
  p_duration_nanos (result plainConverter) = 5 /\
  exists prof, plainRun.1 = Some (prof, None) /\ p_duration_nanos prof = 5.
Proof. vm_compute. split; [reflexivity|]. eexists. split; reflexivity. Qed.

(** C6 (amended). [duration_nanos] is set when the converter is
    constructed, to the time elapsed since the capture time at that moment
    ([now - captureTime]); [Convert] leaves it unchanged, so the profile it
    produces carries [time_nanos = captureTime] and that duration. *)
Theorem C6_duration_at_construction E d pid0 ms t now per fd rawData r c' :
  Convert E rawData (NewConverter d pid0 ms t now per fd) = (r, c') ->
  p_duration_nanos (result (NewConverter d pid0 ms t now per fd)) = now - t /\
  exists prof, r = Some (prof, None) /\ p_time_nanos prof = t /\
    p_duration_nanos prof = now - t.
Proof.
  intros Hrun.
  destruct (Convert_fresh _ _ _ _ _ _ _ _ _ _ _ Hrun) as (_ & -> & _ & _ & Ht & Hd & _).
  split; [reflexivity|]. exists (result c'). auto.
Qed.

Lemma C6_witness :
  plainRun = (plainRun.1, plainRun.2) /\
  exists prof, plainRun.1 = Some (prof, None) /\ p_duration_nanos prof = 15 - 10.
Proof.
  split; [exact plainRun_eq|].
  destruct (C6_duration_at_construction plainEnv false 1 plainMappings 10 15 1 0 plainSamples
              plainRun.1 plainRun.2 plainRun_eq) as (_ & prof & Hr & _ & Hd).
  exists prof. auto.
Defined.

(** C10. Every raw sample yields a Sample whose value vector has exactly
    one element: its [uint64] value [v] read as a two's-complement
    [int64], i.e. [v] when [v < 2^63] and [v - 2^64] otherwise; so a raw
    value of at least [2^63] is recorded as a negative value. *)
Theorem C10_sample_value E d pid0 ms t now per fd rawData r c' :
  Convert E rawData (NewConverter d pid0 ms t now per fd) = (r, c') ->
  exists prof, r = Some (prof, None) /\
  forall j rs, rawData !! j = Some rs -> 0 <= rs_value rs < 2 ^ 64 ->
    exists s, p_sample prof !! j = Some s /\
      s_value s = [if rs_value rs <? 2 ^ 63 then rs_value rs else rs_value rs - 2 ^ 64] /\
      (2 ^ 63 <= rs_value rs -> exists v, s_value s = [v] /\ v < 0).
Proof.
  intros Hrun.
  destruct (Convert_fresh _ _ _ _ _ _ _ _ _ _ _ Hrun) as (_ & -> & _ & _ & _ & _ & _ & Hall & _).
  exists (result c'). split; [done|].
  intros j rs Hj Hv. destruct (Hall j rs Hj) as (s & Hs & Hval & _).
  exists s. split; [done|]. rewrite Hval, int64_of_uint64_range by done.
  split; [done|]. intros Hbig. eexists. split; [reflexivity|].
  destruct (Z.ltb_spec (rs_value rs) (2 ^ 63)); lia.
Qed.

Lemma C10_witness :
  plainRun = (plainRun.1, plainRun.2) /\
  plainSamples !! 1%nat = Some (mkRawSample (2 ^ 63 + 5) [8192] [7]) /\
  0 <= 2 ^ 63 + 5 < 2 ^ 64 /\
  exists prof s, plainRun.1 = Some (prof, None) /\ p_sample prof !! 1%nat = Some s /\
    s_value s = [2 ^ 63 + 5 - 2 ^ 64].
Proof.
  split; [exact plainRun_eq|]. split; [reflexivity|]. split; [lia|].
  destruct (C10_sample_value plainEnv false 1 plainMappings 10 15 1 0 plainSamples
              plainRun.1 plainRun.2 plainRun_eq) as (prof & Hr & Hall).
  destruct (Hall 1%nat (mkRawSample (2 ^ 63 + 5) [8192] [7]) eq_refl) as (s & Hs & Hv & _).
  { cbn [rs_value]. lia. }
  exists prof, s. split; [exact Hr|]. split; [exact Hs|]. rewrite Hv. reflexivity.
Defined.


(** Every location reference produced by a conversion step is an index of
    the Location table, and stays one as the table grows. *)
Definition bounded (c : Converter) (ls : list nat) : Prop :=
  Forall (fun x => x < length (p_location (result c)))%nat ls.

Lemma bounded_grows c c' ls : grows c c' -> bounded c ls -> bounded c' ls.
Proof.
  intros G Hb. destruct (gr_loc _ _ G) as [ls' Hls]. unfold bounded in *.
  rewrite Hls, length_app. eapply Forall_impl; [exact Hb|]. simpl. lia.
Qed.

Lemma bounded_snoc c ls l : bounded c ls -> (l < length (p_location (result c)))%nat ->
  bounded c (ls ++ [l]).
Proof. intros Hb Hl. unfold bounded. apply Forall_app. split; [done|]. by constructor. Qed.

Lemma convertKernelStack_bounded ksyms ks locs c r c' :
  Inv c -> bounded c locs -> convertKernelStack ksyms ks locs c = (r, c') -> bounded c' r.
Proof.
  revert locs c. induction ks as [|a ks IH]; intros locs c HI Hb Hrun; simpl in Hrun; st_unfold.
  - by injection Hrun as <- <-.
  - destruct (addKernelLocation (kernelMapping c) ksyms a c) as [l c1] eqn:Hk.
    destruct (addKernelLocation_spec _ _ _ _ _ HI Hk) as (HI1 & G1 & _ & Hl).
    apply (IH (locs ++ [l]) c1 HI1); [|exact Hrun].
    apply bounded_snoc; [eapply bounded_grows; eauto|]. eapply idx_lookup_valid; eauto.
Qed.

Lemma convertUserStack_bounded E us locs c r c' :
  Inv c -> bounded c locs -> convertUserStack E us locs c = (Some r, c') -> bounded c' r.
Proof.
  revert locs c. induction us as [|a us IH]; intros locs c HI Hb Hrun; simpl in Hrun; st_unfold.
  - by injection Hrun as <- <-.
  - destruct (mappingForAddr_spec (p_mapping (result c)) a)
      as [[Hidx _] | (j & m & Hidx & Hj & Hc & _)]; rewrite Hidx in Hrun.
    + simpl in Hrun.
      destruct (set_frameDrop_inv c (S (frameDropMappingNil c)) HI) as [HI1 G1].
      apply (IH locs _ HI1); [eapply bounded_grows; eauto|exact Hrun].
    + assert (Hjl := mappingForAddr_user c a j m HI Hj Hc).
      assert (Hne : (Z.of_nat j =? -1) = false) by (apply Z.eqb_neq; lia).
      rewrite Hne, Nat2Z.id, Hj in Hrun.
      destruct (lookup_lt_is_Some_2 (mappings c) j Hjl) as [pm Hpm].
      rewrite Hpm in Hrun.
      destruct (if String.eqb (m_file m) "[vdso]" then addVDSOLocation E pm j a
                else if String.eqb (m_file m) "jit" then addPerfMapLocation E j a
                else if HasSuffix (m_file m) ".dump" then addJITDumpLocation E j a (m_file m)
                else addAddrLocation E pm j a) as [l c1] eqn:Hl.
      assert (Hstep : Inv c1 /\ grows c c1 /\ exists k, idx_lookup c1 k = Some l).
      { destruct (String.eqb (m_file m) "[vdso]") eqn:Hv.
        { edestruct addVDSOLocation_spec as (? & ? & _ & ?); eauto. }
        destruct (String.eqb (m_file m) "jit") eqn:Hjit.
        { edestruct addPerfMapLocation_spec as (? & ? & _ & ?); eauto. }
        destruct (HasSuffix (m_file m) ".dump") eqn:Hd.
        { edestruct addJITDumpLocation_spec as (? & ? & _ & ?); eauto. }
        edestruct addAddrLocation_spec as (? & ? & _ & ?); eauto.
        apply (user_mapping_not_kernel _ _ _ HI (grows_refl c) Hjl). }
      destruct Hstep as (HI1 & G1 & k & Hk).
      apply (IH (locs ++ [l]) c1 HI1); [|exact Hrun].
      apply bounded_snoc; [eapply bounded_grows; eauto|]. eapply idx_lookup_valid; eauto.
Qed.

Lemma convertSamples_bounded E ksyms rawData c r c' :
  Inv c -> Forall (fun s => bounded c (s_location s)) (p_sample (result c)) ->
  convertSamples E ksyms rawData c = (r, c') ->
  Forall (fun s => bounded c' (s_location s)) (p_sample (result c')).
Proof.
  revert c. induction rawData as [|rs rawData IH]; intros c HI Hb Hrun; simpl in Hrun; st_unfold.
  - by injection Hrun as <- <-.
  - destruct (convertKernelStack _ (rs_kernel_stack rs) [] c) as [ks c1] eqn:Hk.
    destruct (convertKernelStack_spec _ _ _ _ _ _ HI Hk) as (HI1 & G1 & [_ Qs1] & _).
    assert (Bk := convertKernelStack_bounded _ _ _ _ _ _ HI (Forall_nil_2 _) Hk).
    destruct (convertUserStack E (rs_user_stack rs) ks c1) as [us c2] eqn:Hu.
    destruct (convertUserStack_spec _ _ _ _ _ _ HI1 Hu) as (HI2 & G2 & Qs2 & uls & -> & _).
    assert (Bu := convertUserStack_bounded _ _ _ _ _ _ HI1 Bk Hu).
    destruct (set_sample_inv c2 (p_sample (result c2) ++
        [mkSample [int64_of_uint64 (rs_value rs)] (ks ++ uls)]) HI2) as [HI3 G3].
    apply (IH _ HI3); [|exact Hrun].
    cbn [set_result result prof_with_sample p_sample].
    apply Forall_app. split.
    + assert (Hb2 : Forall (fun s => bounded c2 (s_location s)) (p_sample (result c2))).
      { rewrite Qs2, Qs1. eapply Forall_impl; [exact Hb|]. intros s Hs.
        eapply bounded_grows; [exact G2|]. eapply bounded_grows; [exact G1|exact Hs]. }
      eapply Forall_impl; [exact Hb2|]. intros s Hs. eapply bounded_grows; [exact G3|exact Hs].
    + constructor; [|constructor]. cbn [s_location].
      eapply bounded_grows; [exact G3|exact Bu].
Qed.


(** The part of the converter that only JIT symbolization reads or
    writes, with the flag that guards it. *)
Definition jitState (c : Converter) :=
  (disableJITSymbolization c, cachedPerfMap c, cachedPerfMapErr c, cachedJitdump c,
   cachedJitdumpErr c, perfmapLocationIndex c, jitdumpLocationIndex c).

Lemma jitState_disable c c' :
  jitState c' = jitState c -> disableJITSymbolization c' = disableJITSymbolization c.
Proof. unfold jitState. congruence. Qed.

Lemma addFunction_jit name c r c' :
  addFunction name c = (r, c') -> jitState c' = jitState c.
Proof.
  intros Hrun. unfold addFunction in Hrun. st_unfold.
  destruct (functionIndex c !! name); injection Hrun as _ <-; reflexivity.
Qed.

(** The tail [addFunction]; index; [appendLocation] leaves [jitState]
    alone when the index written is not a JIT one. *)
Ltac jit_tail Hrun :=
  match type of Hrun with
  | context [addFunction ?name ?c] =>
      let f := fresh "f" in let c1 := fresh "c1" in let Hf := fresh "Hf" in
      destruct (addFunction name c) as [f c1] eqn:Hf;
      apply addFunction_jit in Hf;
      unfold appendLocation in Hrun; st_unfold; injection Hrun as _ <-;
      rewrite <- Hf; reflexivity
  end.

Lemma addKernelLocation_jit m ks a c r c' :
  addKernelLocation m ks a c = (r, c') -> jitState c' = jitState c.
Proof.
  intros Hrun. unfold addKernelLocation in Hrun. st_unfold.
  destruct (kernelLocationIndex c !! _); [by injection Hrun as _ <-|jit_tail Hrun].
Qed.

Lemma addVDSOLocation_jit E pm m a c r c' :
  addVDSOLocation E pm m a c = (r, c') -> jitState c' = jitState c.
Proof.
  intros Hrun. unfold addVDSOLocation in Hrun. st_unfold.
  destruct (vdsoLocationIndex c !! _); [by injection Hrun as _ <-|jit_tail Hrun].
Qed.

Lemma addAddrLocationNoNormalization_jit m a c r c' :
  addAddrLocationNoNormalization m a c = (r, c') -> jitState c' = jitState c.
Proof.
  intros Hrun. unfold addAddrLocationNoNormalization in Hrun. st_unfold.
  destruct (addrLocationIndex c !! a); injection Hrun as _ <-; reflexivity.
Qed.

Lemma addAddrLocation_jit E pm m a c r c' :
  addAddrLocation E pm m a c = (r, c') -> jitState c' = jitState c.
Proof. apply addAddrLocationNoNormalization_jit. Qed.

Lemma addPerfMapLocation_jit E m a c r c' :
  disableJITSymbolization c = true ->
  addPerfMapLocation E m a c = (r, c') -> jitState c' = jitState c.
Proof.
  intros Hd Hrun. unfold addPerfMapLocation in Hrun. st_unfold. rewrite Hd in Hrun.
  exact (addAddrLocationNoNormalization_jit _ _ _ _ _ Hrun).
Qed.

Lemma addJITDumpLocation_jit E m a path c r c' :
  disableJITSymbolization c = true ->
  addJITDumpLocation E m a path c = (r, c') -> jitState c' = jitState c.
Proof.
  intros Hd Hrun. unfold addJITDumpLocation in Hrun. st_unfold. rewrite Hd in Hrun.
  exact (addAddrLocationNoNormalization_jit _ _ _ _ _ Hrun).
Qed.

Lemma convertKernelStack_jit ksyms ks locs c r c' :
  convertKernelStack ksyms ks locs c = (r, c') -> jitState c' = jitState c.
Proof.
  revert locs c. induction ks as [|a ks IH]; intros locs c Hrun; simpl in Hrun; st_unfold.
  - by injection Hrun as _ <-.
  - destruct (addKernelLocation (kernelMapping c) ksyms a c) as [l c1] eqn:Hk.
    rewrite (IH _ _ Hrun). exact (addKernelLocation_jit _ _ _ _ _ _ Hk).
Qed.

Lemma convertUserStack_jit E us locs c r c' :
  disableJITSymbolization c = true ->
  convertUserStack E us locs c = (r, c') -> jitState c' = jitState c.
Proof.
  revert locs c. induction us as [|a us IH]; intros locs c Hd Hrun; simpl in Hrun; st_unfold.
  - by injection Hrun as _ <-.
  - destruct (mappingForAddr (p_mapping (result c)) a =? -1).
    + simpl in Hrun. apply IH in Hrun; [exact Hrun|exact Hd].
    + set (i := Z.to_nat (mappingForAddr (p_mapping (result c)) a)) in Hrun.
      destruct (mappings c !! i) as [pm|], (p_mapping (result c) !! i) as [mp|];
        try (injection Hrun as _ <-; reflexivity).
      match type of Hrun with
      | (let (_, _) := ?step c in _) = _ => destruct (step c) as [l c1] eqn:Hl
      end.
      assert (Hs : jitState c1 = jitState c).
      { destruct (String.eqb (m_file mp) "[vdso]"); [eapply addVDSOLocation_jit; eauto|].
        destruct (String.eqb (m_file mp) "jit"); [eapply addPerfMapLocation_jit; eauto|].
        destruct (HasSuffix (m_file mp) ".dump"); [eapply addJITDumpLocation_jit; eauto|].
        eapply addAddrLocation_jit; eauto. }
      rewrite <- Hs. apply (IH _ _ ltac:(rewrite (jitState_disable _ _ Hs); exact Hd) Hrun).
Qed.

Lemma convertSamples_jit E ksyms rawData c r c' :
  disableJITSymbolization c = true ->
  convertSamples E ksyms rawData c = (r, c') -> jitState c' = jitState c.
Proof.
  revert c. induction rawData as [|rs rawData IH]; intros c Hd Hrun; simpl in Hrun; st_unfold.
  - by injection Hrun as _ <-.
  - destruct (convertKernelStack _ (rs_kernel_stack rs) [] c) as [ks c1] eqn:Hk.
    apply convertKernelStack_jit in Hk.
    destruct (convertUserStack E (rs_user_stack rs) ks c1) as [us c2] eqn:Hu.
    apply convertUserStack_jit in Hu; [|rewrite (jitState_disable _ _ Hk); exact Hd].
    destruct us as [uls|]; [|injection Hrun as _ <-; congruence].
    apply IH in Hrun; [rewrite Hrun; transitivity (jitState c2); [reflexivity|congruence]|].
    simpl. rewrite (jitState_disable _ _ Hu), (jitState_disable _ _ Hk). exact Hd.
Qed.

End PprofFacts.

(* ===================================================================== *)
(** ** Facts about the debuginfo manager *)
(* ===================================================================== *)

Module DebuginfoFacts.
Import Debuginfo Examples.

Ltac st_unfold := unfold st_bind, st_get, st_put, st_ret in *.

Ltac present := cbn; apply bool_decide_eq_true; set_solver.

Lemma si_Put_present ch b : ch <> SINoop -> si_GetIfPresent (si_Put ch b) b = true.
Proof. destruct ch; [done|]. intros _. simpl. apply bool_decide_eq_true. set_solver. Qed.

(** A build id present in the should-initiate cache is reported as
    uploaded without any backend call. *)
Lemma EnsureUploaded_cached E root src m :
  si_GetIfPresent (shouldInitiateCache m) (of_build_id src) = true ->
  EnsureUploaded E root src m = (None, m).
Proof. intros H. unfold EnsureUploaded, shouldInitiate. st_unfold. by rewrite H. Qed.

(** C7. [shouldInitiate(buildID)] returns false, without a backend call,
    when the build id is in the should-initiate cache. Otherwise it calls
    [ShouldInitiateUpload] once: on an error it returns true (fail-open);
    on "yes" it returns true; on "no" it puts the build id into the cache
    (where it is then present, unless caching is disabled) and returns
    false. *)
Theorem C7_shouldInitiate E m b r m' :
  shouldInitiate E b m = (r, m') ->
  (si_GetIfPresent (shouldInitiateCache m) b = true -> r = false /\ m' = m) /\
  (si_GetIfPresent (shouldInitiateCache m) b = false ->
     events m' = events m ++ [EvShouldInitiateUpload b] /\ hashCache m' = hashCache m /\
     match ShouldInitiateUpload E b with
     | None => r = true /\ shouldInitiateCache m' = shouldInitiateCache m
     | Some true => r = true /\ shouldInitiateCache m' = shouldInitiateCache m
     | Some false => r = false /\ shouldInitiateCache m' = si_Put (shouldInitiateCache m) b /\
         (shouldInitiateCache m <> SINoop -> si_GetIfPresent (shouldInitiateCache m') b = true)
     end).
Proof.
  unfold shouldInitiate, emit, putShouldInitiate. st_unfold. intros Hrun. split.
  - intros Hc. rewrite Hc in Hrun. by injection Hrun as <- <-.
  - intros Hc. rewrite Hc in Hrun.
    destruct (ShouldInitiateUpload E b) as [[|]|]; injection Hrun as <- <-; simpl;
      repeat split; auto using si_Put_present.
Qed.

Lemma C7_witness :
  shouldInitiate declineEnv "abc123" (New false) =
    ((shouldInitiate declineEnv "abc123" (New false)).1,
     (shouldInitiate declineEnv "abc123" (New false)).2) /\
  si_GetIfPresent (shouldInitiateCache (New false)) "abc123" = false /\
  (shouldInitiate declineEnv "abc123" (New false)).1 = false /\
  si_GetIfPresent (shouldInitiateCache (shouldInitiate declineEnv "abc123" (New false)).2)
    "abc123" = true.
Proof.
  assert (H : shouldInitiate declineEnv "abc123" (New false) =
    ((shouldInitiate declineEnv "abc123" (New false)).1,
     (shouldInitiate declineEnv "abc123" (New false)).2)) by reflexivity.
  split; [exact H|]. split; [reflexivity|].
  destruct (C7_shouldInitiate declineEnv (New false) "abc123" _ _ H) as [_ Hmiss].
  destruct (Hmiss eq_refl) as (_ & _ & Hr & _ & Hin).
  split; [exact Hr|]. apply Hin. discriminate.
Defined.

(** C8. With the should-initiate cache enabled, when the [InitiateUpload]
    call that [upload] makes answers [AlreadyExists] (the call with the
    cached hash of the object, or, when no hash is cached, with the hash
    read from the object), [upload] returns a nil error, starts no body
    transfer and no [MarkUploadFinished], and leaves the build id in the
    should-initiate cache; an [EnsureUploaded] of an object with that
    build id on the resulting manager then returns a nil error without
    any backend call or transfer. *)
Theorem C8_already_exists E dbg es hs evs r m' :
  match h_GetIfPresent hs (of_build_id dbg, of_modtime dbg) with
  | Some h => InitiateUpload E (of_build_id dbg) h (of_size dbg) = inl (StatusErr AlreadyExists)
  | None => ReaderOk E dbg = true /\ exists h, HashReader E dbg = Some h /\
      InitiateUpload E (of_build_id dbg) h (of_size dbg) = inl (StatusErr AlreadyExists)
  end ->
  upload E dbg (mkManager (SIBurrow es) hs evs) = (r, m') ->
  r = None /\
  (exists evs', events m' = evs ++ evs' /\
     forall b, (EvUploadBody b ∉ evs') /\ (EvMarkUploadFinished b ∉ evs')) /\
  si_GetIfPresent (shouldInitiateCache m') (of_build_id dbg) = true /\
  forall root src, of_build_id src = of_build_id dbg ->
    EnsureUploaded E root src m' = (None, m').
Proof.
  intros Hinit Hrun.
  assert (Hdone : forall m, si_GetIfPresent (shouldInitiateCache m) (of_build_id dbg) = true ->
            forall root src, of_build_id src = of_build_id dbg ->
            EnsureUploaded E root src m = (None, m)).
  { intros m Hm root src Hs. apply EnsureUploaded_cached. by rewrite Hs. }
  unfold upload, shouldInitiate, emit, putShouldInitiate, putHash in Hrun. st_unfold.
  cbn [shouldInitiateCache si_GetIfPresent hashCache events] in Hrun.
  destruct (bool_decide (of_build_id dbg ∈ es)) eqn:Hc.
  - injection Hrun as <- <-. split; [done|]. split.
    + exists []. rewrite app_nil_r. split; [done|]. intros b. split; apply not_elem_of_nil.
    + split; [done|]. apply Hdone. done.
  - destruct (ShouldInitiateUpload E (of_build_id dbg)) as [[|]|]; cbn in Hrun.
    2: { injection Hrun as <- <-. split; [done|]. split.
         - eexists. split; [reflexivity|]. intros b.
           split; intros Hin; apply list_elem_of_singleton in Hin; discriminate.
         - split; [present|]. apply Hdone. present. }
    all: destruct (h_GetIfPresent hs (of_build_id dbg, of_modtime dbg)) as [h|] eqn:Hh;
      idtac;
      [|destruct Hinit as (Hreader & h0 & Hhash & Hinit)];
      cbn in Hrun; rewrite ?Hreader, ?Hhash in Hrun; cbn in Hrun; rewrite Hinit in Hrun;
      injection Hrun as <- <-; (split; [done|]); (split;
        [eexists; split; [cbn; rewrite <- !app_assoc; reflexivity|];
         intros b; split; intros Hin; cbn in Hin; repeat (apply elem_of_cons in Hin as [Hin|Hin];
           [discriminate|]); by apply not_elem_of_nil in Hin
        |]);
      (split; [present|]); apply Hdone; present.
Qed.

Lemma C8_witness :
  (match h_GetIfPresent (HBurrow ∅) (of_build_id debugObject, of_modtime debugObject) with
   | Some h => InitiateUpload alreadyExistsEnv (of_build_id debugObject) h (of_size debugObject)
                 = inl (StatusErr AlreadyExists)
   | None => ReaderOk alreadyExistsEnv debugObject = true /\
       exists h, HashReader alreadyExistsEnv debugObject = Some h /\
       InitiateUpload alreadyExistsEnv (of_build_id debugObject) h (of_size debugObject)
         = inl (StatusErr AlreadyExists)
   end) /\
  (upload alreadyExistsEnv debugObject (New false)).1 = None /\
  EnsureUploaded alreadyExistsEnv "/" debugObject (upload alreadyExistsEnv debugObject (New false)).2
    = (None, (upload alreadyExistsEnv debugObject (New false)).2).
Proof.
  assert (H : upload alreadyExistsEnv debugObject (mkManager (SIBurrow ∅) (HBurrow ∅) []) =
    ((upload alreadyExistsEnv debugObject (New false)).1,
     (upload alreadyExistsEnv debugObject (New false)).2)) by reflexivity.
  assert (Hi : match h_GetIfPresent (HBurrow ∅) (of_build_id debugObject, of_modtime debugObject) with
   | Some h => InitiateUpload alreadyExistsEnv (of_build_id debugObject) h (of_size debugObject)
                 = inl (StatusErr AlreadyExists)
   | None => ReaderOk alreadyExistsEnv debugObject = true /\
       exists h, HashReader alreadyExistsEnv debugObject = Some h /\
       InitiateUpload alreadyExistsEnv (of_build_id debugObject) h (of_size debugObject)
         = inl (StatusErr AlreadyExists)
   end) by (split; [reflexivity|]; exists "h1"%string; split; reflexivity).
  pose proof (fun Hi' => C8_already_exists alreadyExistsEnv debugObject _ _ _ _ _ Hi' H) as HC.
  destruct (HC ltac:(split; [reflexivity|]; exists "h1"%string; split; reflexivity))
    as (Hr & _ & _ & Hens).
  split; [exact Hi|]. split; [exact Hr|]. apply Hens. reflexivity.
Defined.

End DebuginfoFacts.

(* ===================================================================== *)
(** ** Facts about the VDSO cache *)
(* ===================================================================== *)

Module VdsoFacts.
Import Vdso Examples.

(** The spec's C9: [NewCache] probes [/usr/lib/modules/<release>/vdso.so]
    and [/usr/lib/modules/<release>/vdso64.so] and fails only if neither
    opens. With release ["6.1"], where exactly the first of these paths
    opens and the file's ELF view and dynamic symbols can be read,
    [NewCache] still fails. *)
Lemma C9_counterexample :
  KernelRelease specPathVdso = Some "6.1"%string /\
  Open specPathVdso "/usr/lib/modules/6.1/vdso.so" <> None /\
  (forall obj, ELF specPathVdso obj <> None) /\
  (forall ef, DynamicSymbols specPathVdso ef <> None) /\
  exists e, NewCache specPathVdso = inl e.
Proof.
  split; [reflexivity|]. split; [discriminate|]. split; [discriminate|].
  split; [discriminate|]. eexists. reflexivity.
Qed.

(** C9 (amended). [NewCache] fails when the kernel release cannot be
    read. Otherwise it probes [/usr/lib/modules/<release>/vdso/vdso.so]
    and then [/usr/lib/modules/<release>/vdso/vdso64.so]: its result
    depends on which files open only through these two paths; it reads
    the first that opens, and its cache records that path; it fails when
    neither opens, and also when the opened file's ELF view or dynamic
    symbols cannot be read. *)
Theorem C9_probe_paths V :
  (KernelRelease V = None -> exists e, NewCache V = inl e) /\
  forall kv, KernelRelease V = Some kv ->
  (forall V', KernelRelease V' = Some kv ->
     Open V' (vdsoPath kv "vdso.so") = Open V (vdsoPath kv "vdso.so") ->
     Open V' (vdsoPath kv "vdso64.so") = Open V (vdsoPath kv "vdso64.so") ->
     ELF V' = ELF V -> DynamicSymbols V' = DynamicSymbols V -> NewCache V' = NewCache V) /\
  (Open V (vdsoPath kv "vdso.so") = None -> Open V (vdsoPath kv "vdso64.so") = None ->
     exists e, NewCache V = inl e) /\
  (forall obj ef syms, Open V (vdsoPath kv "vdso.so") = Some obj ->
     ELF V obj = Some ef -> DynamicSymbols V ef = Some syms ->
     NewCache V = inr (mkCache syms (vdsoPath kv "vdso.so"))) /\
  (forall obj ef syms, Open V (vdsoPath kv "vdso.so") = None ->
     Open V (vdsoPath kv "vdso64.so") = Some obj ->
     ELF V obj = Some ef -> DynamicSymbols V ef = Some syms ->
     NewCache V = inr (mkCache syms (vdsoPath kv "vdso64.so"))) /\
  (forall obj, (Open V (vdsoPath kv "vdso.so") = Some obj \/
                (Open V (vdsoPath kv "vdso.so") = None /\
                 Open V (vdsoPath kv "vdso64.so") = Some obj)) ->
     (ELF V obj = None \/ exists ef, ELF V obj = Some ef /\ DynamicSymbols V ef = None) ->
     exists e, NewCache V = inl e).
Proof.
  split; [intros HK; unfold NewCache; rewrite HK; eauto|].
  intros kv HK. unfold NewCache. rewrite HK. cbn [probe]. split; [|split; [|split; [|split]]].
  - intros V' HK' H1 H2 HE HD. rewrite HK'. cbn [probe]. rewrite H1, H2, HE, HD. reflexivity.
  - intros H1 H2. rewrite H1, H2. eauto.
  - intros obj ef syms H1 HE HD. rewrite H1, HE, HD. reflexivity.
  - intros obj ef syms H1 H2 HE HD. rewrite H1, H2, HE, HD. reflexivity.
  - intros obj [H1 | [H1 H2]] [HE | (ef & HE & HD)].
    + rewrite H1, HE. eauto.
    + rewrite H1, HE, HD. eauto.
    + rewrite H1, H2, HE. eauto.
    + rewrite H1, H2, HE, HD. eauto.
Qed.

Lemma C9_witness :
  KernelRelease vdso64Only = Some "6.1"%string /\
  Open vdso64Only (vdsoPath "6.1" "vdso.so") = None /\
  NewCache vdso64Only = inr (mkCache [] (vdsoPath "6.1" "vdso64.so")).
Proof.
  destruct (C9_probe_paths vdso64Only) as [_ H].
  destruct (H "6.1"%string eq_refl) as (_ & _ & _ & H64 & _).
  split; [reflexivity|]. split; [reflexivity|].
  apply (H64 (mkVObj (vdsoPath "6.1" "vdso64.so")) (mkElfFile (mkVObj (vdsoPath "6.1" "vdso64.so"))));
    reflexivity.
Defined.

End VdsoFacts.

(* ===================================================================== *)
(** ** Further facts about the converter *)
(* ===================================================================== *)

Module PprofExtras.
Import Pprof Examples PprofFacts.

Ltac st_unfold := unfold st_bind, st_get, st_put, st_ret in *.

(** In a profile produced by [Convert], no two Functions have the same
    name. *)
Theorem Convert_function_names_unique E d pid0 ms t now per fd rawData r c' :
  Convert E rawData (NewConverter d pid0 ms t now per fd) = (r, c') ->
  exists prof, r = Some (prof, None) /\
  forall i i' f f', p_function prof !! i = Some f -> p_function prof !! i' = Some f' ->
    fn_name f = fn_name f' -> i = i'.
Proof.
  intros Hrun. destruct (Convert_fresh _ _ _ _ _ _ _ _ _ _ _ Hrun) as (HI & -> & _).
  exists (result c'). split; [done|]. intros i i' f f' Hf Hf' Hn.
  assert (H1 : functionIndex c' !! fn_name f = Some i) by (apply (inv_findex _ HI); eauto).
  assert (H2 : functionIndex c' !! fn_name f = Some i')
    by (apply (inv_findex _ HI); exists f'; split; [done|congruence]).
  congruence.
Qed.

Lemma Convert_function_names_unique_witness :
  plainRun = (plainRun.1, plainRun.2) /\
  exists prof, plainRun.1 = Some (prof, None) /\ length (p_function prof) = 1%nat.
Proof.
  split; [exact plainRun_eq|].
  destruct (Convert_function_names_unique plainEnv false 1 plainMappings 10 15 1 0 plainSamples
              plainRun.1 plainRun.2 plainRun_eq) as (prof & Hr & _).
  exists prof. split; [exact Hr|].
  assert (Hp : prof = result plainRun.2) by (vm_compute in Hr; injection Hr as <-; reflexivity).
  subst prof. vm_compute. reflexivity.
Defined.

(** Kernel Locations are shared by symbol, not by address: any two kernel
    frames of a conversion (in the same or in different samples) whose
    addresses resolve to the same symbol reference the same Location. So
    when kernel symbolization fails, all kernel frames of the profile
    reference one single Location (["not found"]). *)
Theorem Convert_kernel_frames_by_symbol E d pid0 ms t now per fd rawData r c' :
  Convert E rawData (NewConverter d pid0 ms t now per fd) = (r, c') ->
  exists prof, r = Some (prof, None) /\
  (forall j1 j2 rs1 rs2 s1 s2 i1 i2 a1 a2,
     rawData !! j1 = Some rs1 -> rawData !! j2 = Some rs2 ->
     p_sample prof !! j1 = Some s1 -> p_sample prof !! j2 = Some s2 ->
     rs_kernel_stack rs1 !! i1 = Some a1 -> rs_kernel_stack rs2 !! i2 = Some a2 ->
     kernelSymbolFor E rawData a1 = kernelSymbolFor E rawData a2 ->
     s_location s1 !! i1 = s_location s2 !! i2) /\
  (KsymResolve E (kernelAddressesOf rawData) = None ->
   forall j1 j2 rs1 rs2 s1 s2 i1 i2 a1 a2,
     rawData !! j1 = Some rs1 -> rawData !! j2 = Some rs2 ->
     p_sample prof !! j1 = Some s1 -> p_sample prof !! j2 = Some s2 ->
     rs_kernel_stack rs1 !! i1 = Some a1 -> rs_kernel_stack rs2 !! i2 = Some a2 ->
     s_location s1 !! i1 = s_location s2 !! i2).
Proof.
  intros Hrun. destruct (Convert_fresh _ _ _ _ _ _ _ _ _ _ _ Hrun)
    as (_ & -> & _ & _ & _ & _ & _ & Hall & _).
  exists (result c'). split; [done|].
  assert (Hsame : forall j1 j2 rs1 rs2 s1 s2 i1 i2 a1 a2,
     rawData !! j1 = Some rs1 -> rawData !! j2 = Some rs2 ->
     p_sample (result c') !! j1 = Some s1 -> p_sample (result c') !! j2 = Some s2 ->
     rs_kernel_stack rs1 !! i1 = Some a1 -> rs_kernel_stack rs2 !! i2 = Some a2 ->
     kernelSymbolFor E rawData a1 = kernelSymbolFor E rawData a2 ->
     s_location s1 !! i1 = s_location s2 !! i2).
  { intros j1 j2 rs1 rs2 s1 s2 i1 i2 a1 a2 Hj1 Hj2 Hs1 Hs2 Ha1 Ha2 Hsym.
    destruct (Hall j1 rs1 Hj1) as (s1' & Hs1' & _ & _ & Hk1).
    destruct (Hall j2 rs2 Hj2) as (s2' & Hs2' & _ & _ & Hk2).
    rewrite Hs1 in Hs1'. injection Hs1' as <-. rewrite Hs2 in Hs2'. injection Hs2' as <-.
    rewrite <- (Hk1 i1 a1 Ha1), <- (Hk2 i2 a2 Ha2), Hsym. reflexivity. }
  split; [exact Hsame|].
  intros Hks j1 j2 rs1 rs2 s1 s2 i1 i2 a1 a2 Hj1 Hj2 Hs1 Hs2 Ha1 Ha2.
  apply (Hsame j1 j2 rs1 rs2 s1 s2 i1 i2 a1 a2); auto.
  unfold kernelSymbolFor. rewrite Hks, !lookup_empty. reflexivity.
Qed.

(** Kernel addresses 7 and 9 of [plainSamples] both fall back to
    ["not found"] and share a Location. *)
Lemma Convert_kernel_frames_by_symbol_witness :
  plainRun = (plainRun.1, plainRun.2) /\
  exists prof s, plainRun.1 = Some (prof, None) /\ p_sample prof !! 0%nat = Some s /\
    s_location s !! 0%nat = s_location s !! 1%nat.
Proof.
  split; [exact plainRun_eq|].
  destruct (Convert_kernel_frames_by_symbol plainEnv false 1 plainMappings 10 15 1 0
              plainSamples plainRun.1 plainRun.2 plainRun_eq) as (prof & Hr & _ & Hnf).
  assert (Hp : prof = result plainRun.2) by (vm_compute in Hr; injection Hr as <-; reflexivity).
  subst prof.
  exists (result plainRun.2), (mkSample [3] [0%nat; 0%nat; 1%nat]).
  split; [exact Hr|]. split; [vm_compute; reflexivity|].
  apply (Hnf eq_refl 0%nat 0%nat (mkRawSample 3 [4096] [7; 9]) (mkRawSample 3 [4096] [7; 9])
           (mkSample [3] [0%nat; 0%nat; 1%nat]) (mkSample [3] [0%nat; 0%nat; 1%nat])
           0%nat 1%nat 7 9); vm_compute; reflexivity.
Defined.

(** [Convert] called twice on one converter keeps accumulating: the second
    profile's Samples are the first profile's followed by one per new raw
    sample, its Locations and Functions extend the first's, and a key
    already indexed keeps its Location. *)
Theorem Convert_twice E1 E2 d pid0 ms t now per fd raw1 raw2 r1 c1 r2 c2 :
  Convert E1 raw1 (NewConverter d pid0 ms t now per fd) = (r1, c1) ->
  Convert E2 raw2 c1 = (r2, c2) ->
  exists prof1 prof2, r1 = Some (prof1, None) /\ r2 = Some (prof2, None) /\
  (exists ss, p_sample prof2 = p_sample prof1 ++ ss /\ length ss = length raw2) /\
  (exists ls, p_location prof2 = p_location prof1 ++ ls) /\
  (exists fs, p_function prof2 = p_function prof1 ++ fs) /\
  (forall k i, idx_lookup c1 k = Some i -> idx_lookup c2 k = Some i).
Proof.
  intros H1 H2. destruct (Convert_fresh _ _ _ _ _ _ _ _ _ _ _ H1) as (HI1 & -> & _).
  destruct (Convert_spec _ _ _ _ _ HI1 H2) as (_ & G & -> & ss & Hss & Hlen & _).
  exists (result c1), (result c2). split; [done|]. split; [done|].
  split; [eauto|]. split; [apply (gr_loc _ _ G)|]. split; [apply (gr_fun _ _ G)|].
  apply (gr_index _ _ G).
Qed.

Lemma Convert_twice_witness :
  plainRun = (plainRun.1, plainRun.2) /\
  Convert plainEnv plainSamples plainRun.2 =
    ((Convert plainEnv plainSamples plainRun.2).1, (Convert plainEnv plainSamples plainRun.2).2) /\
  exists prof1 prof2, plainRun.1 = Some (prof1, None) /\
    (Convert plainEnv plainSamples plainRun.2).1 = Some (prof2, None) /\
    exists ss, p_sample prof2 = p_sample prof1 ++ ss.
Proof.
  assert (H2 : Convert plainEnv plainSamples plainRun.2 =
    ((Convert plainEnv plainSamples plainRun.2).1, (Convert plainEnv plainSamples plainRun.2).2))
    by (vm_compute; reflexivity).
  split; [exact plainRun_eq|]. split; [exact H2|].
  destruct (Convert_twice plainEnv plainEnv false 1 plainMappings 10 15 1 0 plainSamples
              plainSamples _ _ _ _ plainRun_eq H2) as (p1 & p2 & Hr1 & Hr2 & (ss & Hss & _) & _).
  exists p1, p2. split; [exact Hr1|]. split; [exact Hr2|]. eauto.
Defined.

(** Every Sample of a converted profile references Locations only by
    index into the profile's Location table; the Location a reference [p]
    points to has id [p + 1]. *)
Theorem Convert_sample_locations_valid E d pid0 ms t now per fd rawData r c' :
  Convert E rawData (NewConverter d pid0 ms t now per fd) = (r, c') ->
  exists prof, r = Some (prof, None) /\
  forall j s i p, p_sample prof !! j = Some s -> s_location s !! i = Some p ->
    exists l, p_location prof !! p = Some l /\ loc_id l = S p.
Proof.
  intros Hrun. destruct (Convert_fresh _ _ _ _ _ _ _ _ _ _ _ Hrun) as (HI & -> & _).
  exists (result c'). split; [done|].
  assert (Hb : Forall (fun s => bounded c' (s_location s)) (p_sample (result c'))).
  { unfold Convert in Hrun. st_unfold.
    destruct (convertSamples E _ rawData _) as [u c1] eqn:Hs.
    destruct u as [[]|]; simpl in Hrun; [|discriminate]. injection Hrun as _ <-.
    eapply convertSamples_bounded; [apply NewConverter_inv| |exact Hs].
    apply Forall_nil_2. }
  intros j s i p Hs Hp.
  rewrite Forall_lookup in Hb. specialize (Hb j s Hs). unfold bounded in Hb.
  rewrite Forall_lookup in Hb. specialize (Hb i p Hp).
  destruct (lookup_lt_is_Some_2 _ _ Hb) as [l Hl].
  exists l. split; [done|]. apply (inv_loc _ HI _ _ Hl).
Qed.

Lemma Convert_sample_locations_valid_witness :
  plainRun = (plainRun.1, plainRun.2) /\
  exists prof l, plainRun.1 = Some (prof, None) /\ p_location prof !! 1%nat = Some l /\
    loc_id l = 2%nat.
Proof.
  split; [exact plainRun_eq|].
  destruct (Convert_sample_locations_valid plainEnv false 1 plainMappings 10 15 1 0
              plainSamples plainRun.1 plainRun.2 plainRun_eq) as (prof & Hr & Hv).
  assert (Hp : prof = result plainRun.2) by (vm_compute in Hr; injection Hr as <-; reflexivity).
  subst prof.
  destruct (Hv 0%nat (mkSample [3] [0%nat; 0%nat; 1%nat]) 2%nat 1%nat)
    as (l & Hl & Hid); [vm_compute; reflexivity|reflexivity|].
  exists (result plainRun.2), l. split; [exact Hr|]. split; [exact Hl|exact Hid].
Defined.

(** With JIT symbolization disabled, a conversion never reads the perf map
    or a jitdump (their memo fields stay empty) and the profile has no
    symbolized JIT Location: no Location is classed as a perf-map or a
    jitdump Location, so frames in ["jit"] and [*.dump] mappings get plain
    address Locations. *)
Theorem Convert_disableJIT E pid0 ms t now per fd rawData r c' :
  Convert E rawData (NewConverter true pid0 ms t now per fd) = (r, c') ->
  exists prof, r = Some (prof, None) /\
  cachedPerfMap c' = None /\ cachedPerfMapErr c' = None /\
  cachedJitdump c' = ∅ /\ cachedJitdumpErr c' = ∅ /\
  forall i l s, p_location prof !! i = Some l ->
    loc_class (p_mapping prof) (p_function prof) (length ms) l <> Some (KPerf s) /\
    loc_class (p_mapping prof) (p_function prof) (length ms) l <> Some (KJit s).
Proof.
  intros Hrun. destruct (Convert_fresh _ _ _ _ _ _ _ _ _ _ _ Hrun) as (HI & -> & HK & _).
  assert (Hj : jitState c' = jitState (NewConverter true pid0 ms t now per fd)).
  { unfold Convert in Hrun. st_unfold.
    destruct (convertSamples E _ rawData _) as [u c1] eqn:Hs.
    apply convertSamples_jit in Hs; [|reflexivity].
    destruct u as [[]|]; simpl in Hrun; [|discriminate]. injection Hrun as _ <-. exact Hs. }
  unfold jitState in Hj. cbn in Hj. injection Hj as _ H1 H2 H3 H4 H5 H6.
  exists (result c'). split; [done|]. do 4 (split; [done|]).
  intros i l s Hl. rewrite <- HK. split; intros Hc.
  - assert (Hi : idx_lookup c' (KPerf s) = Some i) by (apply (inv_index _ HI); eauto).
    simpl in Hi. rewrite H5, lookup_empty in Hi. discriminate.
  - assert (Hi : idx_lookup c' (KJit s) = Some i) by (apply (inv_index _ HI); eauto).
    simpl in Hi. rewrite H6, lookup_empty in Hi. discriminate.
Qed.

Lemma Convert_disableJIT_witness :
  Convert jitEnv jitSamples (NewConverter true 7 jitMappings 0 0 1 0) =
    ((Convert jitEnv jitSamples (NewConverter true 7 jitMappings 0 0 1 0)).1,
     (Convert jitEnv jitSamples (NewConverter true 7 jitMappings 0 0 1 0)).2) /\
  cachedPerfMap (Convert jitEnv jitSamples (NewConverter true 7 jitMappings 0 0 1 0)).2 = None.
Proof.
  assert (H : Convert jitEnv jitSamples (NewConverter true 7 jitMappings 0 0 1 0) =
    ((Convert jitEnv jitSamples (NewConverter true 7 jitMappings 0 0 1 0)).1,
     (Convert jitEnv jitSamples (NewConverter true 7 jitMappings 0 0 1 0)).2))
    by (vm_compute; reflexivity).
  split; [exact H|].
  destruct (Convert_disableJIT jitEnv 7 jitMappings 0 0 1 0 jitSamples _ _ H)
    as (_ & _ & Hp & _). exact Hp.
Defined.

End PprofExtras.

(* ===================================================================== *)
(** ** Further facts about the debuginfo manager *)
(* ===================================================================== *)

Module DebuginfoExtras.
Import Debuginfo Examples.

Ltac st_unfold := unfold st_bind, st_get, st_put, st_ret in *.

(** The backend calls and the body transfer of one upload, in the order
    [upload] makes them. *)
Definition uploadSteps (b : string) : list Event :=
  [EvShouldInitiateUpload b; EvInitiateUpload b; EvUploadBody b; EvMarkUploadFinished b].

(** [upload] follows the protocol: its events are a prefix of
    should-initiate, initiate, body transfer, mark-finished, each at most
    once. A nil error means it stopped before initiating (cached or
    declined), or the backend answered [AlreadyExists] to the initiate
    call, or the body was transferred and marked finished: a transfer is
    never reported as a success without [MarkUploadFinished]. *)
Theorem upload_protocol E dbg m r m' :
  upload E dbg m = (r, m') ->
  exists n, (n <= 4)%nat /\
  events m' = events m ++ take n (uploadSteps (of_build_id dbg)) /\
  (r = None -> n = 0%nat \/ n = 1%nat \/
     (n = 2%nat /\ exists h,
        InitiateUpload E (of_build_id dbg) h (of_size dbg) = inl (StatusErr AlreadyExists)) \/
     n = 4%nat).
Proof.
  intros Hrun.
  unfold upload, shouldInitiate, emit, putShouldInitiate, putHash, uploadFile in Hrun.
  st_unfold. repeat (case_match; simpl in *); simplify_eq.
  all: first
    [ solve [exists 0%nat; split; [lia|]; split; [cbn; rewrite ?app_nil_r, <- ?app_assoc; reflexivity|];
             intros Hr; first [discriminate | left; reflexivity]]
    | solve [exists 1%nat; split; [lia|]; split; [cbn; rewrite <- ?app_assoc; reflexivity|];
             intros Hr; first [discriminate | right; left; reflexivity]]
    | solve [exists 2%nat; split; [lia|]; split; [cbn; rewrite <- ?app_assoc; reflexivity|];
             intros Hr; first [discriminate | right; right; left; split; [reflexivity|eexists; eassumption]]]
    | solve [exists 3%nat; split; [lia|]; split; [cbn; rewrite <- ?app_assoc; reflexivity|];
             intros Hr; discriminate]
    | solve [exists 4%nat; split; [lia|]; split; [cbn; rewrite <- ?app_assoc; reflexivity|];
             intros Hr; first [discriminate | right; right; right; reflexivity]] ].
Qed.

Lemma upload_protocol_witness :
  upload alreadyExistsEnv debugObject (New false) =
    ((upload alreadyExistsEnv debugObject (New false)).1,
     (upload alreadyExistsEnv debugObject (New false)).2) /\
  exists n, (n <= 4)%nat /\
  events (upload alreadyExistsEnv debugObject (New false)).2 =
    [] ++ take n (uploadSteps "abc123").
Proof.
  assert (H : upload alreadyExistsEnv debugObject (New false) =
    ((upload alreadyExistsEnv debugObject (New false)).1,
     (upload alreadyExistsEnv debugObject (New false)).2)) by reflexivity.
  split; [exact H|].
  destruct (upload_protocol alreadyExistsEnv debugObject (New false) _ _ H) as (n & Hn & He & _).
  exists n. split; [exact Hn|exact He].
Defined.

(** An [upload] whose build id is not cached starts with the
    should-initiate call. *)
Lemma upload_first E dbg m r m' :
  si_GetIfPresent (shouldInitiateCache m) (of_build_id dbg) = false ->
  upload E dbg m = (r, m') ->
  exists evs, events m' = events m ++ [EvShouldInitiateUpload (of_build_id dbg)] ++ evs.
Proof.
  intros Hmiss Hrun.
  unfold upload, shouldInitiate, emit, putShouldInitiate, putHash, uploadFile in Hrun.
  st_unfold. rewrite Hmiss in Hrun. repeat (case_match; simpl in *); simplify_eq.
  all: eexists; cbn; rewrite <- ?app_assoc; reflexivity.
Qed.

(** [EnsureUploaded] and the [upload] it runs each call [shouldInitiate]
    with the same build id: when the id is not cached and the backend does
    not decline (it answers yes, or the call fails), the backend's
    should-initiate endpoint is asked twice in a row. *)
Theorem EnsureUploaded_asks_twice E root src dbg m r m' :
  si_GetIfPresent (shouldInitiateCache m) (of_build_id src) = false ->
  ShouldInitiateUpload E (of_build_id src) <> Some false ->
  AcquireToken E = true ->
  (of_debug_file src = Some dbg \/
   (of_debug_file src = None /\ ExtractOrFind E root src = Some dbg)) ->
  of_build_id dbg = of_build_id src ->
  EnsureUploaded E root src m = (r, m') ->
  exists evs, events m' = events m ++
    [EvShouldInitiateUpload (of_build_id src); EvShouldInitiateUpload (of_build_id src)] ++ evs.
Proof.
  intros Hmiss Hyes Htok Hdbg Hb Hrun.
  unfold EnsureUploaded, shouldInitiate, emit in Hrun. st_unfold. rewrite Hmiss in Hrun.
  assert (Hrun' : exists m1, events m1 = events m ++ [EvShouldInitiateUpload (of_build_id src)] /\
            shouldInitiateCache m1 = shouldInitiateCache m /\ Upload E dbg m1 = (r, m')).
  { destruct (ShouldInitiateUpload E (of_build_id src)) as [[|]|]; [|congruence|];
      simpl in Hrun; destruct Hdbg as [Hd | [Hd Hx]]; rewrite Hd in Hrun;
      try rewrite Hx in Hrun;
      exists (mkManager (shouldInitiateCache m) (hashCache m)
                (events m ++ [EvShouldInitiateUpload (of_build_id src)]));
      (split; [reflexivity|]); (split; [reflexivity|exact Hrun]). }
  destruct Hrun' as (m1 & He1 & Hc1 & Hup).
  unfold Upload in Hup. rewrite Htok in Hup. simpl in Hup.
  rewrite <- Hb in Hmiss. rewrite <- Hc1 in Hmiss.
  destruct (upload_first E dbg m1 r m' Hmiss Hup) as [evs He].
  exists evs. rewrite He, He1, Hb, <- app_assoc. reflexivity.
Qed.

Lemma EnsureUploaded_asks_twice_witness :
  si_GetIfPresent (shouldInitiateCache (New false)) (of_build_id debugObject) = false /\
  ShouldInitiateUpload alreadyExistsEnv (of_build_id debugObject) <> Some false /\
  exists evs, events (EnsureUploaded alreadyExistsEnv "/" debugObject (New false)).2 =
    [] ++ [EvShouldInitiateUpload "abc123"; EvShouldInitiateUpload "abc123"] ++ evs.
Proof.
  assert (H : EnsureUploaded alreadyExistsEnv "/" debugObject (New false) =
    ((EnsureUploaded alreadyExistsEnv "/" debugObject (New false)).1,
     (EnsureUploaded alreadyExistsEnv "/" debugObject (New false)).2)) by reflexivity.
  split; [reflexivity|]. split; [discriminate|].
  exact (EnsureUploaded_asks_twice alreadyExistsEnv "/" debugObject debugObject (New false)
           _ _ eq_refl ltac:(discriminate) eq_refl (or_intror (conj eq_refl eq_refl))
           eq_refl H).
Defined.

(** When the object has no debug file and [ExtractOrFind] fails,
    [EnsureUploaded] reports the error after the should-initiate call
    alone: nothing is initiated, transferred or cached. *)
Theorem EnsureUploaded_extract_failure E root src m r m' :
  si_GetIfPresent (shouldInitiateCache m) (of_build_id src) = false ->
  ShouldInitiateUpload E (of_build_id src) <> Some false ->
  of_debug_file src = None -> ExtractOrFind E root src = None ->
  EnsureUploaded E root src m = (r, m') ->
  r = Some "extract or find"%string /\
  events m' = events m ++ [EvShouldInitiateUpload (of_build_id src)] /\
  shouldInitiateCache m' = shouldInitiateCache m /\ hashCache m' = hashCache m.
Proof.
  intros Hmiss Hyes Hd Hx Hrun.
  unfold EnsureUploaded, shouldInitiate, emit in Hrun. st_unfold. rewrite Hmiss in Hrun.
  destruct (ShouldInitiateUpload E (of_build_id src)) as [[|]|]; [|congruence|];
    simpl in Hrun; rewrite Hd, Hx in Hrun; injection Hrun as <- <-; auto.
Qed.

Lemma EnsureUploaded_extract_failure_witness :
  (EnsureUploaded (mkDEnv (fun _ => None) (InitiateUpload alreadyExistsEnv)
      (fun _ _ => None) (fun _ => true) (fun _ => None) (fun _ _ => None)
      (fun _ _ _ => None) (fun _ _ => None) true) "/" debugObject (New false)).1
    = Some "extract or find"%string.
Proof.
  set (E := mkDEnv (fun _ => None) (InitiateUpload alreadyExistsEnv)
      (fun _ _ => None) (fun _ => true) (fun _ => None) (fun _ _ => None)
      (fun _ _ _ => None) (fun _ _ => None) true).
  assert (H : EnsureUploaded E "/" debugObject (New false) =
    ((EnsureUploaded E "/" debugObject (New false)).1,
     (EnsureUploaded E "/" debugObject (New false)).2)) by reflexivity.
  exact (proj1 (EnsureUploaded_extract_failure E "/" debugObject (New false) _ _
                  eq_refl ltac:(discriminate) eq_refl eq_refl H)).
Defined.

Lemma quot100_2 (c : Z) : Z.quot c 100 = 2 <-> 200 <= c <= 299.
Proof.
  destruct (Z.le_gt_cases 0 c).
  - rewrite Z.quot_div_nonneg by lia. split.
    + intros H1. pose proof (Z.div_mod c 100). pose proof (Z.mod_pos_bound c 100). lia.
    + intros H1. symmetry. apply Z.div_unique with (r := c - 200); lia.
  - split; [|lia]. intros H1. pose proof (Z.quot_rem c 100 ltac:(lia)).
    pose proof (Z.rem_bound_pos_neg c 100 ltac:(lia) ltac:(lia)). lia.
Qed.

(** A signed-URL upload whose request was sent succeeds exactly when
    the response status is a 2xx code (200 to 299); any other status,
    including a negative one, is an error. *)
Theorem uploadViaSignedURL_status H url size code :
  NewRequestOk H url = true -> Do H url size = Some code ->
  uploadViaSignedURL H url size = None <-> 200 <= code <= 299.
Proof.
  intros Hreq Hdo. unfold uploadViaSignedURL. rewrite Hreq, Hdo. simpl.
  rewrite <- quot100_2. destruct (Z.eqb_spec (Z.quot code 100) 2); simpl; split; congruence.
Qed.

Lemma uploadViaSignedURL_status_witness :
  uploadViaSignedURL (mkHTTPEnv (fun _ => true) (fun _ _ => Some 204)) "https://u" 10 = None /\
  uploadViaSignedURL (mkHTTPEnv (fun _ => true) (fun _ _ => Some 300)) "https://u" 10 <> None.
Proof.
  split.
  - apply (uploadViaSignedURL_status (mkHTTPEnv (fun _ => true) (fun _ _ => Some 204))
             "https://u" 10 204 eq_refl eq_refl). lia.
  - intros Hn. apply (uploadViaSignedURL_status (mkHTTPEnv (fun _ => true) (fun _ _ => Some 300))
             "https://u" 10 300 eq_refl eq_refl) in Hn. lia.
Defined.

(** [Extract] returns either the source object itself or what [extract]
    produced; [extract] runs only when stripping is enabled and the binary
    has a [.text] section, and the only other error is the ELF one. *)
Theorem Extract_result X strip src res :
  Extract X strip src = res ->
  match res with
  | inr f => f = src \/
      (strip = true /\ HasTextSection X src = Some true /\
       extract X (of_build_id src) src = Some f)
  | inl e => HasTextSection X src = None \/
      (strip = true /\ HasTextSection X src = Some true /\
       extract X (of_build_id src) src = None)
  end.
Proof.
  intros <-. unfold Extract.
  destruct (HasTextSection X src) as [[|]|] eqn:Ht; [|destruct strip; simpl; auto|auto].
  destruct strip; simpl; [|auto].
  destruct (extract X (of_build_id src) src) eqn:He; auto.
Qed.

Lemma Extract_result_witness :
  Extract (mkXEnv (fun _ _ => None) (fun _ => None) (fun _ => Some false)
             (fun _ _ => None)) true debugObject = inr debugObject /\
  (debugObject = debugObject \/
   (true = true /\ Some false = Some true /\ (None : option ObjectFile) = Some debugObject)).
Proof.
  split; [reflexivity|].
  exact (Extract_result (mkXEnv (fun _ _ => None) (fun _ => None) (fun _ => Some false)
             (fun _ _ => None)) true debugObject (inr debugObject) eq_refl).
Defined.

(** [ExtractOrFind] prefers a separately installed debuginfo file: its
    result is the file [Find] located and the pool opened, or else exactly
    [Extract]'s; a failing [Find] or [Open] is never reported, every error
    is [Extract]'s wrapped as ["failed to strip debuginfo"]. *)
Theorem ExtractOrFind_result X strip root src res :
  ExtractOrFind_ X strip root src = res ->
  match res with
  | inr f => (exists p, Find X root src = Some p /\ p <> ""%string /\ PoolOpen X p = Some f) \/
             Extract X strip src = inr f
  | inl e => e = "failed to strip debuginfo"%string /\ exists e', Extract X strip src = inl e'
  end.
Proof.
  intros <-. unfold ExtractOrFind_.
  assert (Hfb : match (match Extract X strip src with
                       | inl _ => inl "failed to strip debuginfo"%string
                       | inr dbg => inr dbg end) with
                | inr f => (exists p, Find X root src = Some p /\ p <> ""%string /\
                                      PoolOpen X p = Some f) \/ Extract X strip src = inr f
                | inl e => e = "failed to strip debuginfo"%string /\
                           exists e', Extract X strip src = inl e'
                end).
  { destruct (Extract X strip src); eauto. }
  destruct (Find X root src) as [p|] eqn:Hf; [|exact Hfb].
  destruct (String.eqb_spec p "") as [->|Hne]; simpl; [exact Hfb|].
  destruct (PoolOpen X p) eqn:Ho; [|exact Hfb]. left. eauto.
Qed.

Lemma ExtractOrFind_result_witness :
  ExtractOrFind_ (mkXEnv (fun _ _ => Some "/usr/lib/debug/app.debug"%string)
                   (fun _ => None) (fun _ => None) (fun _ _ => None))
                 true "/" debugObject = inl "failed to strip debuginfo"%string /\
  exists e', Extract (mkXEnv (fun _ _ => Some "/usr/lib/debug/app.debug"%string)
                   (fun _ => None) (fun _ => None) (fun _ _ => None)) true debugObject = inl e'.
Proof.
  split; [reflexivity|].
  exact (proj2 (ExtractOrFind_result (mkXEnv (fun _ _ => Some "/usr/lib/debug/app.debug"%string)
                   (fun _ => None) (fun _ => None) (fun _ _ => None))
                 true "/" debugObject (inl "failed to strip debuginfo"%string) eq_refl)).
Defined.

End DebuginfoExtras.


(* ===================================================================== *)
(** ** Further facts about the vdso cache and the eh-frame tool *)
(* ===================================================================== *)

Module VdsoExtras.
Import Vdso.

(** [Resolve] on a nil cache answers an empty name and no error. On a
    cache, the error is nil exactly when a mapping is given, it
    normalizes the address and the searcher finds a symbol there, and the
    name is that symbol; on every error the name is empty. *)
Theorem Resolve_spec Normalize Search c addr m sym err :
  Resolve Normalize Search c addr m = (sym, err) ->
  (c = None -> sym = ""%string /\ err = None) /\
  forall ch, c = Some ch ->
    (err = None <-> exists pm a', m = Some pm /\ Normalize pm addr = Some a' /\
                                  Search (searcher ch) a' = Some sym) /\
    (err <> None -> sym = ""%string).
Proof.
  intros Hr. split.
  - intros ->. simpl in Hr. injection Hr as <- <-. done.
  - intros ch ->. simpl in Hr.
    destruct m as [pm|]; [|injection Hr as <- <-; split;
      [split; [discriminate|intros (? & ? & ? & _); discriminate] | done]].
    destruct (Normalize pm addr) as [a'|] eqn:Hn; [|injection Hr as <- <-; split;
      [split; [discriminate|intros (? & ? & [=<-] & ? & _); congruence] | done]].
    destruct (Search (searcher ch) a') as [s|] eqn:Hs.
    + injection Hr as <- <-. split; [|done]. split; [|done]. intros _. eauto.
    + injection Hr as <- <-. split; [|done]. split; [discriminate|].
      intros (pm' & a'' & [=<-] & Hn' & Hs'). congruence.
Qed.

Lemma Resolve_spec_witness :
  Resolve (fun m a => Some (a - Pprof.pm_start m)) (fun _ a => if a =? 16 then Some "clock_gettime"%string else None)
    (Some (mkCache [] "/usr/lib/modules/6.1/vdso/vdso.so")) 4112
    (Some (Pprof.mkProcessMapping 4096 8192 0 "[vdso]" "")) = ("clock_gettime"%string, None) /\
  exists pm a', Some (Pprof.mkProcessMapping 4096 8192 0 "[vdso]" "") = Some pm /\
    Some (4112 - Pprof.pm_start pm) = Some a' /\
    (if a' =? 16 then Some "clock_gettime"%string else None) = Some "clock_gettime"%string.
Proof.
  split; [reflexivity|].
  destruct (Resolve_spec (fun m a => Some (a - Pprof.pm_start m))
              (fun _ a => if a =? 16 then Some "clock_gettime"%string else None)
              (Some (mkCache [] "/usr/lib/modules/6.1/vdso/vdso.so")) 4112
              (Some (Pprof.mkProcessMapping 4096 8192 0 "[vdso]" "")) _ _ eq_refl) as [_ H].
  apply (proj1 (H _ eq_refl)). reflexivity.
Defined.

End VdsoExtras.

Module EhFrameExtras.
Import EhFrame Examples.

(** When [kong.Parse] ends the process itself (help, bad command line)
    the tool prints no table and exits with kong's status. Once the
    command line is parsed, the tool exits with status 1 exactly when no
    executable is given, and then only writes the usage error to stderr
    and prints no table. Otherwise it prints the table of that executable,
    filtered by the relative PC when it is non-zero and unfiltered when it
    is zero, and exits 0 even when printing fails, after writing the error
    to stdout. *)
Theorem main_spec M args out code :
  main M args = (out, code) ->
  (forall text e st, Parse M args = ParseExit text e st ->
     code = st /\ forall p c pc, ~ In (Table p c pc) out) /\
  forall fl, Parse M args = Parsed fl ->
  (code = 1 <-> Executable fl = ""%string) /\
  (Executable fl = ""%string ->
     out = [Stderr "The executable argument is required"] /\
     forall p c pc, ~ In (Table p c pc) out) /\
  (Executable fl <> ""%string ->
     code = 0 /\
     exists pc, (pc = None <-> RelativePC fl = 0) /\ (forall v, pc = Some v -> v = RelativePC fl) /\
       match PrintTable M (Executable fl) (Compact fl) pc with
       | None => out = [Table (Executable fl) (Compact fl) pc]
       | Some err => out = [Table (Executable fl) (Compact fl) pc; Stdout ("failed with: " ++ err)]
       end).
Proof.
  intros Hm. unfold main in Hm.
  destruct (Parse M args) as [fl|text e st] eqn:Hp.
  2: { injection Hm as <- <-. split; [|intros fl [=]].
       intros text' e' st' [= <- <- <-]. split; [done|].
       intros p c pc [Hin|[]]. destruct e; discriminate. }
  split; [intros text e st [=]|]. intros fl' [= <-].
  destruct (String.eqb_spec (Executable fl) "") as [He|He].
  - injection Hm as <- <-. split; [tauto|]. split; [|tauto].
    intros _. split; [done|]. intros p c pc [Hin|[]]. discriminate.
  - set (pc := if negb (RelativePC fl =? 0) then Some (RelativePC fl) else None) in Hm.
    assert (Hpc : (pc = None <-> RelativePC fl = 0) /\ (forall v, pc = Some v -> v = RelativePC fl)).
    { subst pc. destruct (Z.eqb_spec (RelativePC fl) 0); simpl; split; try split;
        try congruence; intros v [=]; auto. }
    assert (Hc : code = 0)
      by (destruct (PrintTable M (Executable fl) (Compact fl) pc); injection Hm as _ <-; done).
    subst code. split; [split; [discriminate|tauto]|]. split; [tauto|].
    intros _. split; [reflexivity|]. exists pc. split; [exact (proj1 Hpc)|].
    split; [exact (proj2 Hpc)|].
    destruct (PrintTable M (Executable fl) (Compact fl) pc); injection Hm as <-; reflexivity.
Qed.

Lemma main_spec_witness :
  main (toolEnv (Some "no .eh_frame section"%string))
       ["--executable=/bin/true"; "--relative-pc=4096"]%string =
    ([Table "/bin/true" false (Some 4096); Stdout "failed with: no .eh_frame section"], 0) /\
  (main (toolEnv None) []).2 = 1 /\
  (main (toolEnv None) ["--help"%string]).2 = 0.
Proof.
  split; [reflexivity|].
  assert (H : main (toolEnv None) [] =
    ((main (toolEnv None) []).1, (main (toolEnv None) []).2)) by reflexivity.
  destruct (main_spec (toolEnv None) [] _ _ H) as [_ Hparsed].
  destruct (Hparsed (mkFlags "" false 0) eq_refl) as [Hc _].
  split; [apply Hc; reflexivity|].
  assert (H' : main (toolEnv None) ["--help"%string] =
    ((main (toolEnv None) ["--help"%string]).1, (main (toolEnv None) ["--help"%string]).2))
    by reflexivity.
  destruct (main_spec (toolEnv None) ["--help"%string] _ _ H') as [Hexit _].
  exact (proj1 (Hexit "Usage: eh-frame"%string false 0 eq_refl)).
Defined.

End EhFrameExtras.
